(** * lwc-dev-mobile-core: Common.ts and AndroidDevice.ts

    A shallow embedding of [src/common/Common.ts] (CaseInsensitiveStringMap,
    Version) and of [src/common/device/AndroidDevice.ts] (AndroidDevice), with
    the properties of the specification proved about it.

    Conventions of the embedding.
    - A JavaScript string is a [string]: a sequence of code units, here the
      code units below 256 (the Latin-1 part of UTF-16).
    - A JavaScript number is a double. The numbers of this code hold
      integers, and such a number is the [Z] it holds; +Infinity is
      [JsNumber.infinity]. Every operation rounds its exact result to the
      nearest double, ties to the even significand ([JsNumber.round]), so the
      model and exact arithmetic agree up to 2^53 and part from there.
    - A regular expression is a [RegExp.Pattern], run by the backtracking
      matcher of ECMA-262 (continuation passing, leftmost alternative first,
      greedy quantifiers, captures, backreferences).
    - A function that can throw returns a [Result]; a method of a device runs
      in the state-and-exception monad [M] over the device's port, the journal
      of the calls made to the host, and the host itself. *)

From Stdlib Require Import ZArith String Ascii List Bool Lia.
From Stdlib Require Import DecimalString DecimalN DecimalFacts.
From stdpp Require Import base gmap strings list.

Import ListNotations.
Local Open Scope Z_scope.
Local Open Scope string_scope.

Set Default Proof Using "Type".

(* ===================================================================== *)
(** ** Strings of the platform *)
(* ===================================================================== *)

Module JsString.

Definition code (c : ascii) : N := N_of_ascii c.

(** WhiteSpace and LineTerminator code points below 256: TAB, LF, VT, FF,
    CR, SP and NBSP. These are what [String.prototype.trim] strips. *)
Definition isWhiteSpace (c : ascii) : bool :=
  let n := code c in
  (((9 <=? n) && (n <=? 13)) || (n =? 32) || (n =? 160))%N.

Fixpoint trimStart (s : list ascii) : list ascii :=
  match s with
  | c :: tl => if isWhiteSpace c then trimStart tl else s
  | [] => []
  end.

Definition trimEnd (s : list ascii) : list ascii :=
  rev (trimStart (rev s)).

Definition trimL (s : list ascii) : list ascii := trimEnd (trimStart s).

(** [s.trim()] *)
Definition trim (s : string) : string :=
  string_of_list_ascii (trimL (list_ascii_of_string s)).

(** Upper-case letters below 256: A-Z, and the Latin-1 letters U+00C0 to
    U+00DE without the multiplication sign U+00D7; each has its lower-case
    form 32 code points higher. *)
Definition isUpper (c : ascii) : bool :=
  let n := code c in
  (((65 <=? n) && (n <=? 90))
   || ((192 <=? n) && (n <=? 222) && negb (n =? 215)))%N.

Definition lowerChar (c : ascii) : ascii :=
  if isUpper c then ascii_of_N (code c + 32) else c.

(** [s.toLowerCase()] *)
Fixpoint toLowerCase (s : string) : string :=
  match s with
  | EmptyString => EmptyString
  | String c tl => String (lowerChar c) (toLowerCase tl)
  end.

Fixpoint startsWith (p s : list ascii) : bool :=
  match p, s with
  | [], _ => true
  | a :: p', b :: s' => if Ascii.eqb a b then startsWith p' s' else false
  | _ :: _, [] => false
  end.

(** [s.includes(p)] *)
Fixpoint includesL (p s : list ascii) : bool :=
  startsWith p s ||
  match s with
  | [] => false
  | _ :: tl => includesL p tl
  end.

Definition includes (s p : string) : bool :=
  includesL (list_ascii_of_string p) (list_ascii_of_string s).

(** [s.split('/')[0]]: the part of [s] before the first occurrence of the
    separator, all of [s] when there is none. *)
Fixpoint splitFirst (sep : ascii) (s : string) : string :=
  match s with
  | EmptyString => EmptyString
  | String c tl => if Ascii.eqb c sep then EmptyString
                   else String c (splitFirst sep tl)
  end.

End JsString.

(* ===================================================================== *)
(** ** Regular expressions: the backtracking matcher of ECMA-262 *)
(* ===================================================================== *)

Module RegExp.

(** Captures: group number to captured text; a group that took no part in
    the match has no entry (it is [undefined]). *)
Definition Captures := list (nat * list ascii).

Fixpoint capture (n : nat) (cs : Captures) : option (list ascii) :=
  match cs with
  | [] => None
  | (k, v) :: tl => if Nat.eqb k n then Some v else capture n tl
  end.

Definition clearCaptures (parens : list nat) (cs : Captures) : Captures :=
  List.filter (fun kv => negb (existsb (Nat.eqb (fst kv)) parens)) cs.

Record State := mkState
  { endIndex : nat;            (* code units consumed so far *)
    rest : list ascii;         (* the input from endIndex on *)
    captures : Captures }.

Definition Continuation := State -> option State.
Definition Matcher := State -> Continuation -> option State.

Inductive Pattern :=
| AssertStart                              (* ^ *)
| AssertEnd                                (* $ *)
| CharClass (p : ascii -> bool)            (* a character or a class *)
| Seq (r1 r2 : Pattern)                    (* r1 r2 *)
| Disj (r1 r2 : Pattern)                   (* r1|r2 *)
| Star (r : Pattern)                       (* r*, greedy *)
| Opt (r : Pattern)                        (* r?, greedy *)
| Group (n : nat) (r : Pattern)            (* the n-th capturing group *)
| Backref (n : nat).                       (* \n or \k<name> *)

Fixpoint parens (r : Pattern) : list nat :=
  match r with
  | Seq r1 r2 | Disj r1 r2 => parens r1 ++ parens r2
  | Star r | Opt r => parens r
  | Group n r => n :: parens r
  | _ => []
  end.

Definition advance (k : nat) (x : State) : State :=
  mkState (endIndex x + k) (skipn k (rest x)) (captures x).

Definition setCapture (n : nat) (v : list ascii) (x : State) : State :=
  mkState (endIndex x) (rest x) ((n, v) :: captures x).

Definition clear (ps : list nat) (x : State) : State :=
  mkState (endIndex x) (rest x) (clearCaptures ps (captures x)).

(** RepeatMatcher with min = 0 and max = infinity: try one more iteration
    (with the captures of the atom reset), refusing an iteration that
    consumed nothing, and otherwise go on with the continuation. [fuel]
    bounds the iterations still possible: an iteration that is not refused
    consumes input, so [Star] starts with the length of the input left, and
    when [fuel] is 0 no input is left and only the continuation remains. *)
Fixpoint repeatMatcher (fuel : nat) (m : Matcher) (ps : list nat)
         (x : State) (c : Continuation) : option State :=
  match fuel with
  | O => c x
  | S fuel' =>
      let d := fun y =>
        if Nat.eqb (endIndex y) (endIndex x) then None
        else repeatMatcher fuel' m ps y c in
      match m (clear ps x) d with
      | Some z => Some z
      | None => c x
      end
  end.

Fixpoint compile (r : Pattern) : Matcher :=
  match r with
  | AssertStart => fun x c =>
      if Nat.eqb (endIndex x) 0 then c x else None
  | AssertEnd => fun x c =>
      match rest x with [] => c x | _ :: _ => None end
  | CharClass p => fun x c =>
      match rest x with
      | ch :: tl =>
          if p ch then c (mkState (endIndex x + 1) tl (captures x)) else None
      | [] => None
      end
  | Seq r1 r2 => fun x c =>
      compile r1 x (fun y => compile r2 y c)
  | Disj r1 r2 => fun x c =>
      match compile r1 x c with
      | Some z => Some z
      | None => compile r2 x c
      end
  | Star r => fun x c =>
      repeatMatcher (length (rest x)) (compile r) (parens r) x c
  | Opt r => fun x c =>
      let d := fun y =>
        if Nat.eqb (endIndex y) (endIndex x) then None else c y in
      match compile r (clear (parens r) x) d with
      | Some z => Some z
      | None => c x
      end
  | Group n r => fun x c =>
      compile r x (fun y =>
        c (setCapture n (firstn (endIndex y - endIndex x) (rest x)) y))
  | Backref n => fun x c =>
      match capture n (captures x) with
      | None => c x
      | Some s =>
          if JsString.startsWith s (rest x) then c (advance (length s) x)
          else None
      end
  end.

(** [RegExp.prototype.exec] of a pattern without the g and y flags: try
    the match at index 0, then at each later index. *)
Fixpoint execFrom (m : Matcher) (i : nat) (s : list ascii) : option State :=
  match m (mkState i s []) Some with
  | Some z => Some z
  | None =>
      match s with
      | [] => None
      | _ :: tl => execFrom m (S i) tl
      end
  end.

Definition exec (r : Pattern) (s : string) : option Captures :=
  captures <$> execFrom (compile r) 0 (list_ascii_of_string s).

End RegExp.

(* ===================================================================== *)
(** ** Results of functions that can throw *)
(* ===================================================================== *)

(** What the code throws: [new Error(messages.getMessage(key))] (the text
    comes from the message catalogue, so the error is known by its key),
    [new SfError(text)], and whatever a call to the host rejects with. *)
Inductive Exn :=
| ErrorOfMessage (key : string)
| SfError (message : string)
| HostFailure (detail : string).

Inductive Result (A : Type) :=
| Ok (a : A)
| Throw (e : Exn).
Arguments Ok {A} a.
Arguments Throw {A} e.

(* ===================================================================== *)
(** ** Numbers of the platform *)
(* ===================================================================== *)

Module JsNumber.

(** The doubles that hold an integer, each as that integer. A double has a
    significand of 53 bits and, for the integers, an exponent up to 971; the
    largest is (2^53 - 1) * 2^971. +Infinity is written as 2^1024, the
    first power of two past the largest double. *)
Definition infinity : Z := 2 ^ 1024.

(** The double nearest to a natural number [n]: [n] itself below 2^53;
    otherwise the 53 leading bits [q] of [n], one more when the bits dropped
    are past the half, or at the half with [q] odd; and +Infinity when that
    leaves the doubles. *)
Definition roundNatural (n : Z) : Z :=
  if (n <? 2 ^ 53)%Z then n
  else
    let e := Z.log2 n - 52 in
    let q := Z.shiftr n e in
    let r := n - Z.shiftl q e in
    let half := Z.shiftl 1 (e - 1) in
    let q' := if ((half <? r) || ((r =? half) && Z.odd q))%Z then q + 1 else q in
    let v := Z.shiftl q' e in
    if (infinity <=? v)%Z then infinity else v.

Definition round (n : Z) : Z :=
  if (n <? 0)%Z then - roundNatural (- n) else roundNatural n.

(** [a + b] and [a * b] *)
Definition add (a b : Z) : Z := round (a + b).
Definition mul (a b : Z) : Z := round (a * b).

(** The decimal numeral of an integer. *)
Definition decimal (n : Z) : string := NilZero.string_of_int (Z.to_int n).

Definition digitCount (n : Z) : Z := Z.of_nat (String.length (decimal n)).

(** Number::toString chooses the digits of a double [x] as the shortest
    decimal that reads back as [x], and among those of that length the one
    nearest to [x]. With [k] digits, from [k] = 1 on, the candidates are the
    two multiples of 10^(count - k) around [x]; the result is the candidate
    chosen, digits and zeros together. *)
Fixpoint shortestFrom (fuel : nat) (k : Z) (x count : Z) : Z :=
  match fuel with
  | O => x
  | S fuel' =>
      let p := 10 ^ (count - k) in
      let low := x / p in
      let high := low + 1 in
      let lowReads := (round (low * p) =? x)%Z in
      let highReads := (round (high * p) =? x)%Z in
      let lowIsNearer :=
        ((x - low * p <? high * p - x)
         || ((x - low * p =? high * p - x) && Z.even low))%Z in
      if lowReads && (negb highReads || lowIsNearer) then low * p
      else if highReads then high * p
      else shortestFrom fuel' (k + 1) x count
  end.

Fixpoint stripZeros (s : list ascii) : list ascii :=
  match s with
  | [] => []
  | c :: tl =>
      match stripZeros tl with
      | [] => if Ascii.eqb c "0" then [] else [c]
      | tl' => c :: tl'
      end
  end.

(** d.ddde+n, the form of a number from 10^21 on. *)
Definition exponentForm (v : Z) : string :=
  let e := decimal (digitCount v - 1) in
  match stripZeros (list_ascii_of_string (decimal v)) with
  | [] => "0"
  | [d] => String d ("e+" ++ e)
  | d :: ds => String d ("." ++ string_of_list_ascii ds ++ "e+" ++ e)
  end.

(** Up to 2^53 every integer is a double and its shortest decimal is its
    own numeral; 17 digits tell any two doubles apart. *)
Definition toStringNatural (x : Z) : string :=
  if (x <=? 2 ^ 53)%Z then decimal x
  else if (infinity <=? x)%Z then "Infinity"
  else
    let v := shortestFrom 17 1 x (digitCount x) in
    if (v <? 10 ^ 21)%Z then decimal v else exponentForm v.

(** [String(x)], also [`${x}`] *)
Definition toString (x : Z) : string :=
  if (x <? 0)%Z then "-" ++ toStringNatural (- x) else toStringNatural x.

End JsNumber.

(* ===================================================================== *)
(** ** Common.ts: Version *)
(* ===================================================================== *)

Module Version.

Import RegExp.

Record t := Version { major : Z; minor : Z; patch : Z }.

Definition isDigit (c : ascii) : bool :=
  let n := JsString.code c in ((48 <=? n) && (n <=? 57))%N.
Definition isDigit19 (c : ascii) : bool :=
  let n := JsString.code c in ((49 <=? n) && (n <=? 57))%N.
Definition isZero (c : ascii) : bool := Ascii.eqb c "0".
Definition isSeparator (c : ascii) : bool :=
  Ascii.eqb c "-" || Ascii.eqb c ".".

(** 0|[1-9]\d* *)
Definition numeral : Pattern :=
  Disj (CharClass isZero) (Seq (CharClass isDigit19) (Star (CharClass isDigit))).

(** The numbers of the groups of [versionRegex], counted by their opening
    parenthesis. *)
Definition gMajor : nat := 1.
Definition gSeparator : nat := 3.
Definition gMinor : nat := 4.
Definition gPatch : nat := 6.

(** "((?<Separator>[-.])(?<Minor>0|[1-9]\d* ))?": groups 2, 3 and 4. *)
Definition minorPart : Pattern :=
  Opt (Group 2 (Seq (Group gSeparator (CharClass isSeparator))
                    (Group gMinor numeral))).

(** "(\k<Separator>(?<Patch>0|[1-9]\d* ))?": groups 5 and 6. *)
Definition patchPart : Pattern :=
  Opt (Group 5 (Seq (Backref gSeparator) (Group gPatch numeral))).

(** The pattern of the source, written here with blanks between its parts:
    ^ (?<Major> 0|[1-9]\d* )
      ( (?<Separator> [-.] ) (?<Minor> 0|[1-9]\d* ) )?
      ( \k<Separator> (?<Patch> 0|[1-9]\d* ) )? $ *)
Definition versionRegex : Pattern :=
  Seq AssertStart
 (Seq (Group gMajor numeral)
 (Seq minorPart
 (Seq patchPart
      AssertEnd))).

(** [Number.parseInt(s, 10)] on a string that starts with decimal digits:
    the double nearest to the value of its longest prefix of digits, as V8
    computes it (past the 20th significant digit ECMA-262 lets an
    implementation read the digits as zeros). *)
Fixpoint parseDigits (acc : Z) (s : list ascii) : Z :=
  match s with
  | c :: tl =>
      if isDigit c then parseDigits (acc * 10 + (Z.of_N (JsString.code c) - 48)) tl
      else acc
  | [] => acc
  end.

Definition parseInt (s : list ascii) : Z := JsNumber.round (parseDigits 0 s).

Definition groupNumber (g : nat) (cs : Captures) : Z :=
  match capture g cs with
  | Some s => parseInt s
  | None => 0
  end.

(** [Version.from(input)]; [None] is [null]. *)
Definition from (input : string) : option t :=
  let trimmedInput := JsString.trim input in
  match exec versionRegex trimmedInput with
  | None => None
  | Some groups =>
      Some (Version (groupNumber gMajor groups)
                    (groupNumber gMinor groups)
                    (groupNumber gPatch groups))
  end.

(** [`${n}`] *)
Definition numberToString (n : Z) : string := JsNumber.toString n.

(** [toString()]: [`${major}.${minor}.${patch}`] *)
Definition toString (v : t) : string :=
  numberToString (major v) ++ "." ++ numberToString (minor v) ++ "."
    ++ numberToString (patch v).

(** An operand of [same], [sameOrNewer] and [compare]: [Version | string]. *)
Inductive Operand :=
| OfString (s : string)
| OfVersion (v : t).

(** [typeof v === 'string' ? Version.from(v) : v] *)
Definition resolve (v : Operand) : option t :=
  match v with
  | OfString s => from s
  | OfVersion v => Some v
  end.

Definition operandToString (v : Operand) : string :=
  match v with
  | OfString s => s
  | OfVersion v => toString v
  end.

Section Compare.

(** [a.localeCompare(b, undefined, { sensitivity: 'accent' })]: the
    collation of the host's Intl implementation in the host's default
    locale. It is the host's, so the code is read for every such function. *)
Variable localeCompareAccent : string -> string -> Z.

Definition compare (v1 v2 : Operand) : Result Z :=
  let version1 := resolve v1 in
  let version2 := resolve v2 in
  match version1, version2 with
  | None, None =>
      if (localeCompareAccent (operandToString v1) (operandToString v2) =? 0)%Z
      then Ok 0
      else Throw (ErrorOfMessage "error:version:codename:comparing")
  | None, Some _ => Ok 1
  | Some _, None => Ok (-1)
  | Some version1, Some version2 =>
      let num1 :=
        JsNumber.add (JsNumber.add (JsNumber.mul (major version1) 100)
                                   (JsNumber.mul (minor version1) 10))
                     (patch version1) in
      let num2 :=
        JsNumber.add (JsNumber.add (JsNumber.mul (major version2) 100)
                                   (JsNumber.mul (minor version2) 10))
                     (patch version2) in
      if (num1 =? num2)%Z then Ok 0
      else if (num1 <? num2)%Z then Ok (-1)
      else Ok 1
  end.

Definition same (v1 v2 : Operand) : Result bool :=
  match compare v1 v2 with
  | Ok r => Ok (r =? 0)%Z
  | Throw e => Throw e
  end.

Definition sameOrNewer (v1 v2 : Operand) : Result bool :=
  match compare v1 v2 with
  | Ok r => Ok (0 <=? r)%Z
  | Throw e => Throw e
  end.

End Compare.

End Version.

(* ===================================================================== *)
(** ** Common.ts: CaseInsensitiveStringMap *)
(* ===================================================================== *)

Module CaseInsensitiveStringMap.

(** The private field [map = new Map<string, string>()]. *)
Record t := Build { map : gmap string string }.

Definition empty : t := Build ∅.

Definition isLF (c : ascii) : bool := Ascii.eqb c "010".
Definition isCR (c : ascii) : bool := Ascii.eqb c "013".
Definition isKeyValueSeparator (c : ascii) : bool :=
  Ascii.eqb c ":" || Ascii.eqb c "=".

Definition consLine (c : ascii) (ls : list string) : list string :=
  match ls with
  | l :: ls' => String c l :: ls'
  | [] => [String c EmptyString]
  end.

(** [input.split(/\r?\n/)]: a line ends at LF or at CR LF; a CR that no LF
    follows stays in its line; the text after the last separator is a
    line too, so the result is never empty. *)
Fixpoint splitLines (input : string) : list string :=
  match input with
  | EmptyString => [EmptyString]
  | String c tl =>
      if isLF c then EmptyString :: splitLines tl
      else
        match tl with
        | String c' tl' =>
            if isCR c && isLF c' then EmptyString :: splitLines tl'
            else consLine c (splitLines tl)
        | EmptyString => consLine c (splitLines tl)
        end
  end.

(** [line.match(/[:=]/)]: the index of the first ':' or '=' of the line;
    [None] when the line has neither. *)
Fixpoint matchSeparator (line : string) : option nat :=
  match line with
  | EmptyString => None
  | String c tl =>
      if isKeyValueSeparator c then Some O
      else S <$> matchSeparator tl
  end.

(** [s.slice(i, j)] and [s.slice(i)] for indices within the string. *)
Definition slice (s : string) (i j : nat) : string := substring i (j - i) s.
Definition sliceFrom (s : string) (i : nat) : string :=
  substring i (String.length s - i) s.

(** [set(key, value)] *)
Definition set (m : t) (key value : string) : t :=
  Build (<[JsString.toLowerCase key := value]> (map m)).

(** [get(key)]; [None] is [undefined]. *)
Definition get (m : t) (key : string) : option string :=
  map m !! JsString.toLowerCase key.

(** [has(key)] *)
Definition has (m : t) (key : string) : bool :=
  bool_decide (is_Some (map m !! JsString.toLowerCase key)).

(** [delete(key)]: the map without the key, and whether it was there. *)
Definition delete (m : t) (key : string) : t * bool :=
  (Build (base.delete (JsString.toLowerCase key) (map m)), has m key).

(** The body of the loop of [fromString]. *)
Definition addLine (resultMap : t) (line : string) : t :=
  match matchSeparator line with
  | Some index =>
      let key := JsString.trim (slice line 0 index) in
      let value := JsString.trim (sliceFrom line (index + 1)) in
      set resultMap key value
  | None => resultMap
  end.

(** [fromString(input)] *)
Definition fromString (input : string) : t :=
  let lines := splitLines input in
  fold_left addLine lines empty.

End CaseInsensitiveStringMap.

(* ===================================================================== *)
(** ** Common.ts: MapUtils and SetUtils *)
(* ===================================================================== *)

(** A [Map<K, V>] of the platform: its entries in insertion order, one per
    key. Keys are compared by a decidable equality (SameValueZero). *)
Module JsMap.

Section Operations.

Context {K V : Type} `{EqDecision K}.

(** [map.set(key, value)]: the value of an existing key is replaced where it
    stands; a new key goes to the end. *)
Fixpoint set (m : list (K * V)) (key : K) (value : V) : list (K * V) :=
  match m with
  | [] => [(key, value)]
  | (k, v) :: tl =>
      if decide (k = key) then (k, value) :: tl
      else (k, v) :: set tl key value
  end.

(** [map.get(key)] *)
Fixpoint get (m : list (K * V)) (key : K) : option V :=
  match m with
  | [] => None
  | (k, v) :: tl => if decide (k = key) then Some v else get tl key
  end.

End Operations.

End JsMap.

(** A [Set<V>] of the platform: its values in insertion order, each once. *)
Module JsSet.

Section Operations.

Context {V : Type} `{EqDecision V}.

(** [set.add(value)] *)
Fixpoint add (s : list V) (value : V) : list V :=
  match s with
  | [] => [value]
  | v :: tl => if decide (v = value) then v :: tl else v :: add tl value
  end.

(** [set.entries()]: each value, twice. *)
Definition entries (s : list V) : list (V * V) := List.map (fun v => (v, v)) s.

End Operations.

End JsSet.

Module MapUtils.

Section Filter.

Context {K V : Type} `{EqDecision K}.

(** [MapUtils.filter(map, predicate)]; the argument [None] is a null (or
    undefined) map. *)
Definition filter (map : option (list (K * V))) (predicate : K -> V -> bool) :
  list (K * V) :=
  let aMap : list (K * V) := [] in
  match map with
  | None => aMap
  | Some map =>
      let entries := map in
      fold_left
        (fun aMap entry =>
           let '(key, value) := entry in
           if predicate key value then JsMap.set aMap key value else aMap)
        entries aMap
  end.

End Filter.

End MapUtils.

Module SetUtils.

Section Filter.

Context {V : Type} `{EqDecision V}.

(** [SetUtils.filter(set, predicate)]; the argument [None] is a null (or
    undefined) set. *)
Definition filter (set : option (list V)) (predicate : V -> bool) : list V :=
  let aSet : list V := [] in
  match set with
  | None => aSet
  | Some set =>
      let entries := JsSet.entries set in
      fold_left
        (fun aSet entry =>
           let '(value, _) := entry in
           if predicate value then JsSet.add aSet value else aSet)
        entries aSet
  end.

End Filter.

End SetUtils.

(* ===================================================================== *)
(** ** AndroidDevice.ts *)
(* ===================================================================== *)

Module AndroidDevice.

(** [SSLCertificateData] of CryptoUtils.ts: the DER bytes and, when it is
    cached, the PEM text. *)
Record SSLCertificateData := BuildCert
  { derCertificate : list Byte.byte;
    pemCertificate : option string }.

(** The fields of the class. [port] is the only one the methods assign;
    [hasLogger] tells whether the optional [logger] is set. *)
Record t := Build
  { id : string;
    name : string;
    deviceType : string;
    osType : string;
    osVersion : Version.Operand;
    isPlayStore : bool;
    hasLogger : bool;
    port : Z }.

(** [new AndroidDevice(...)]: the port starts at -1. *)
Definition new (id name deviceType osType : string)
           (osVersion : Version.Operand) (isPlayStore hasLogger : bool) : t :=
  Build id name deviceType osType osVersion isPlayStore hasLogger (-1).

Definition setPort (d : t) (p : Z) : t :=
  Build (id d) (name d) (deviceType d) (osType d) (osVersion d)
        (isPlayStore d) (hasLogger d) p.

(** The calls a method makes outside the class, in the order made. *)
Inductive Call :=
| StartEmulator (id : string) (systemWritable waitForBoot : bool)
| RebootEmulator (port : Z) (waitForBoot : bool)
| StopEmulator (port : Z) (waitForExit : bool)
| ExecuteAdbCommand (command : string) (port : Z)
| MountAsRootWritableSystem (id : string)
| WriteFileSync (path data : string)
| LoggerWarn (error : Exn).

(** The static methods of AndroidUtils that the class calls, and
    [fs.writeFileSync], as transitions of the host (the machine, its
    emulators and its file system): each gives back a value or throws, and
    leaves the host changed. *)
Class AndroidUtils (Host : Type) := BuildAndroidUtils
  { startEmulator : string -> bool -> bool -> Host -> Result Z * Host;
    rebootEmulator : Z -> bool -> Host -> Result unit * Host;
    stopEmulator : Z -> bool -> Host -> Result unit * Host;
    executeAdbCommand : string -> Z -> Host -> Result string * Host;
    mountAsRootWritableSystem : string -> Host -> Result unit * Host;
    writeFileSync : string -> string -> Host -> Result unit * Host }.

(** The helpers without effect: [CryptoUtils.getSubjectHashOld] and
    [CryptoUtils.derToPem], which parse the certificate and throw on one
    they cannot parse, [os.tmpdir()] and [path.join]. *)
Class CryptoUtils := BuildCryptoUtils
  { getSubjectHashOld : SSLCertificateData -> Result string;
    derToPem : list Byte.byte -> Result string;
    tmpdir : string;
    pathJoin : string -> string -> string }.

Section Methods.

Context {Host : Type} `{AndroidUtils Host} `{CryptoUtils}.

Record World := BuildWorld
  { device : t;
    journal : list Call;
    host : Host }.

(** A method: from a world to a value or an exception, and a world. *)
Definition M (A : Type) : Type := World -> Result A * World.

Definition ret {A} (a : A) : M A := fun w => (Ok a, w).
Definition throw {A} (e : Exn) : M A := fun w => (Throw e, w).
Definition bind {A B} (m : M A) (k : A -> M B) : M B :=
  fun w =>
    match m w with
    | (Ok a, w') => k a w'
    | (Throw e, w') => (Throw e, w')
    end.
Definition tryCatch {A} (m : M A) (handler : Exn -> M A) : M A :=
  fun w =>
    match m w with
    | (Ok a, w') => (Ok a, w')
    | (Throw e, w') => handler e w'
    end.

Notation "'let!' x ':=' m 'in' k" := (bind m (fun x => k))
  (at level 10, x name, m at level 100, k at level 200).
Notation "'await!' m 'in' k" := (bind m (fun _ => k))
  (at level 10, m at level 100, k at level 200).

(** A helper without effect: its value or its exception, the world as it
    was. *)
Definition pure {A} (r : Result A) : M A := fun w => (r, w).

Definition this : M t := fun w => (Ok (device w), w).
Definition assignPort (p : Z) : M unit :=
  fun w => (Ok tt, BuildWorld (setPort (device w) p) (journal w) (host w)).

(** A call to the host: entered in the journal, then answered. *)
Definition call {A} (c : Call) (f : Host -> Result A * Host) : M A :=
  fun w =>
    let (r, h) := f (host w) in
    (r, BuildWorld (device w) (journal w ++ [c]) h).

(** [this.logger?.warn(error)] *)
Definition loggerWarn (error : Exn) : M unit :=
  fun w =>
    if hasLogger (device w)
    then (Ok tt, BuildWorld (device w) (journal w ++ [LoggerWarn error]) (host w))
    else (Ok tt, w).

Definition emulatorPort : M Z := let! d := this in ret (port d).

(** [boot(waitForBoot = true, systemWritable = false)] *)
Definition boot (waitForBoot systemWritable : bool) : M unit :=
  let! d := this in
  if systemWritable && isPlayStore d then
    throw (SfError "Play Store devices cannot be booted with writable system.")
  else
    let! p := call (StartEmulator (id d) systemWritable waitForBoot)
                   (startEmulator (id d) systemWritable waitForBoot) in
    assignPort p.

(** [reboot(waitForBoot = true)] *)
Definition reboot (waitForBoot : bool) : M unit :=
  let! d := this in
  if (port d =? -1)%Z then
    boot waitForBoot false
  else
    call (RebootEmulator (port d) waitForBoot)
         (rebootEmulator (port d) waitForBoot).

(** [shutdown()] *)
Definition shutdown : M unit :=
  let! d := this in
  call (StopEmulator (port d) true) (stopEmulator (port d) true).

Definition adb (command : string) : M string :=
  let! d := this in
  call (ExecuteAdbCommand command (port d)) (executeAdbCommand command (port d)).

Definition dquote : string := String "034" EmptyString.

Definition listPackagesCommand (pkgId : string) : string :=
  "shell pm list packages | grep " ++ dquote ++ pkgId ++ dquote.

(** [hasApp(target)] *)
Definition hasApp (target : string) : M bool :=
  let pkgId := JsString.splitFirst "/" target in
  let! result := tryCatch (adb (listPackagesCommand pkgId))
                          (fun _ => ret EmptyString) in
  ret (negb (String.eqb (JsString.trim result) EmptyString)).

Definition listCertsCommand : string :=
  "shell " ++ dquote ++ "ls /data/misc/user/0/cacerts-added" ++ dquote.

(** [isCertInstalled(certData)] *)
Definition isCertInstalled (certData : SSLCertificateData) : M bool :=
  let! subjectHash := pure (getSubjectHashOld certData) in
  let fileName := subjectHash ++ ".0" in
  tryCatch
    (await! adb "root" in
     let! result := adb listCertsCommand in
     ret (JsString.includes result fileName))
    (fun error => await! loggerWarn error in ret false).

Definition pushCommand (certFilePath fileName : string) : string :=
  "push " ++ certFilePath ++ " /data/misc/user/0/cacerts-added/" ++ fileName.

Definition chmodCommand (fileName : string) : string :=
  "shell " ++ dquote ++ "su 0 chmod 644 /data/misc/user/0/cacerts-added/"
    ++ fileName ++ dquote.

(** [installCert(certData)] *)
Definition installCert (certData : SSLCertificateData) : M unit :=
  let! subjectHash := pure (getSubjectHashOld certData) in
  let! pemContent :=
    match pemCertificate certData with
    | Some pem => ret pem
    | None => pure (derToPem (derCertificate certData))
    end in
  let fileName := subjectHash ++ ".0" in
  let certFilePath := pathJoin tmpdir fileName in
  await! call (WriteFileSync certFilePath pemContent)
              (writeFileSync certFilePath pemContent) in
  let! d := this in
  await! call (MountAsRootWritableSystem (id d))
              (mountAsRootWritableSystem (id d)) in
  await! adb (pushCommand certFilePath fileName) in
  await! adb (chmodCommand fileName) in
  ret tt.

End Methods.

Arguments World : clear implicits.
Arguments M : clear implicits.

End AndroidDevice.

(* ===================================================================== *)
(** * Definitions used to state the properties *)
(* ===================================================================== *)

(** The weighted sum of a version in exact arithmetic, and as the code
    computes it, in doubles. *)
Definition weight (v : Version.t) : Z :=
  Version.major v * 100 + Version.minor v * 10 + Version.patch v.

Definition doubleWeight (v : Version.t) : Z :=
  JsNumber.add (JsNumber.add (JsNumber.mul (Version.major v) 100)
                             (JsNumber.mul (Version.minor v) 10))
               (Version.patch v).

(** The components are natural numbers and the weighted sum is at most 2^53:
    every step of the sum is then a double. *)
Definition exactWeight (v : Version.t) : Prop :=
  0 <= Version.major v /\ 0 <= Version.minor v /\ 0 <= Version.patch v /\
  weight v <= 2 ^ 53.

(** A host collation that ignores case: strings with the same lower-case
    form compare as equal. *)
Definition ignoresCase (localeCompareAccent : string -> string -> Z) : Prop :=
  forall a b : string,
    JsString.toLowerCase a = JsString.toLowerCase b -> localeCompareAccent a b = 0.

(** The collation of the root locale at sensitivity 'accent', on strings of
    code units below 128. It ignores the control characters other than TAB,
    LF, VT, FF and CR, and it ignores case; it tells every other two code
    units apart. The code looks only at whether the outcome is 0; the sign
    given here for unequal strings is the order of the keys by code unit. *)
Definition isIgnorable (c : ascii) : bool :=
  let n := JsString.code c in
  ((n <=? 8) || ((14 <=? n) && (n <=? 31)) || (n =? 127))%N.

Definition collationKey (s : string) : string :=
  string_of_list_ascii
    (List.filter (fun c => negb (isIgnorable c))
                 (list_ascii_of_string (JsString.toLowerCase s))).

Definition rootCompareAccent (a b : string) : Z :=
  match String.compare (collationKey a) (collationKey b) with
  | Eq => 0
  | Lt => -1
  | Gt => 1
  end.

(** The code unit U+0001. *)
Definition startOfHeading : string := String "001" EmptyString.

(** A numeral as the pattern wants it: 0 alone, or a digit from 1 to 9
    followed by digits. *)
Definition isNumeral (ds : list ascii) : bool :=
  match ds with
  | [] => false
  | c :: tl =>
      (Version.isZero c && match tl with [] => true | _ :: _ => false end)
      || (Version.isDigit19 c && forallb Version.isDigit tl)
  end.

(** No digit comes next in the input. *)
Definition noDigitAhead (tl : list ascii) : bool :=
  match tl with
  | [] => true
  | c :: _ => negb (Version.isDigit c)
  end.

(** The code units of the decimal numeral of a number. *)
Definition digitsOf (n : Z) : list ascii :=
  list_ascii_of_string (JsNumber.decimal n).

(** The code units of a sequence of decimal digits. *)
Definition uintChars (d : Decimal.uint) : list ascii :=
  list_ascii_of_string (NilEmpty.string_of_uint d).

(** No code unit of the list is white space. *)
Definition noSpace (l : list ascii) : bool :=
  forallb (fun c => negb (JsString.isWhiteSpace c)) l.

(** The entry a line stands for: the trimmed texts before and after its
    first ':' or '='; none when the line has neither. *)
Definition entryOf (line : string) : option (string * string) :=
  match CaseInsensitiveStringMap.matchSeparator line with
  | Some index =>
      Some (JsString.trim (CaseInsensitiveStringMap.slice line 0 index),
            JsString.trim (CaseInsensitiveStringMap.sliceFrom line (index + 1)))
  | None => None
  end.

(** The value of the last entry of the list whose key is [key] up to case. *)
Fixpoint lookupLast (key : string) (entries : list (string * string)) : option string :=
  match entries with
  | [] => None
  | (k, v) :: tl =>
      match lookupLast key tl with
      | Some v' => Some v'
      | None =>
          if String.eqb (JsString.toLowerCase k) (JsString.toLowerCase key)
          then Some v else None
      end
  end.

Definition hasNoSeparator (s : string) : bool :=
  forallb (fun c => negb (CaseInsensitiveStringMap.isKeyValueSeparator c))
          (list_ascii_of_string s).

Definition exampleInput : string :=
  "Foo: bar" ++ String "010" ("BAZ=qux" ++ String "010" "malformed-line").

Definition hasNo (sep : ascii) (s : string) : bool :=
  forallb (fun c => negb (Ascii.eqb c sep)) (list_ascii_of_string s).

Definition policyError : Exn :=
  SfError "Play Store devices cannot be booted with writable system.".

(** The code unit of the double quotation mark. *)
Definition quotationMark : string := String "034" EmptyString.

(** The PEM text of a certificate: the cached one, else the DER bytes
    converted. *)
Definition pemOf `{AndroidDevice.CryptoUtils}
  (certData : AndroidDevice.SSLCertificateData) : Result string :=
  match AndroidDevice.pemCertificate certData with
  | Some pem => Ok pem
  | None => AndroidDevice.derToPem (AndroidDevice.derCertificate certData)
  end.

Section DeviceSpecification.

Import AndroidDevice.

Context {Host : Type} `{AndroidUtils Host} `{CryptoUtils}.

(** The world after a call to the host that left the host in [h]. *)
Definition afterCall (w : World Host) (c : Call) (h : Host) : World Host :=
  BuildWorld (device w) (journal w ++ [c]) h.

(** The answer of the host to a call, its value dropped. *)
Definition answer (c : Call) (h : Host) : Result unit * Host :=
  let drop {A} (r : Result A * Host) : Result unit * Host :=
    match r with
    | (Ok _, h') => (Ok tt, h')
    | (Throw e, h') => (Throw e, h')
    end in
  match c with
  | StartEmulator i sw wfb => drop (startEmulator i sw wfb h)
  | RebootEmulator p wfb => drop (rebootEmulator p wfb h)
  | StopEmulator p wfe => drop (stopEmulator p wfe h)
  | ExecuteAdbCommand cmd p => drop (executeAdbCommand cmd p h)
  | MountAsRootWritableSystem i => drop (mountAsRootWritableSystem i h)
  | WriteFileSync f data => drop (writeFileSync f data h)
  | LoggerWarn _ => (Ok tt, h)
  end.

(** The steps of a procedure, done in order until one fails: the result
    (the first failure, if any), the steps that were started, and the host
    afterwards. *)
Fixpoint runSteps (steps : list Call) (h : Host) : Result unit * list Call * Host :=
  match steps with
  | [] => (Ok tt, [], h)
  | c :: tl =>
      match answer c h with
      | (Ok _, h') =>
          let '(r, started, h'') := runSteps tl h' in (r, c :: started, h'')
      | (Throw e, h') => (Throw e, [c], h')
      end
  end.

(** The four steps of [installCert], in their order, for a certificate with
    the subject hash and the PEM text given. *)
Definition installSteps (subjectHash pemContent : string) (d : t) : list Call :=
  let fileName := subjectHash ++ ".0" in
  let certFilePath := pathJoin tmpdir fileName in
  [ WriteFileSync certFilePath pemContent;
    MountAsRootWritableSystem (id d);
    ExecuteAdbCommand
      ("push " ++ certFilePath ++ " /data/misc/user/0/cacerts-added/" ++ fileName)
      (port d);
    ExecuteAdbCommand
      ("shell " ++ quotationMark
         ++ "su 0 chmod 644 /data/misc/user/0/cacerts-added/"
         ++ fileName ++ quotationMark)
      (port d) ].

End DeviceSpecification.

(** ** A scripted host, to run the methods on examples *)

(** A host that answers the successive adb commands from a script and lets
    every other call succeed; the emulator it starts listens on port 5554. *)
Definition ScriptedHost : Type := list (Result string).

Definition scriptedAdb (h : ScriptedHost) : Result string * ScriptedHost :=
  match h with
  | r :: tl => (r, tl)
  | [] => (Throw (HostFailure "adb: no devices/emulators found"), [])
  end.

#[local] Instance scriptedUtils : AndroidDevice.AndroidUtils ScriptedHost :=
  {| AndroidDevice.startEmulator := fun _ _ _ h => (Ok 5554, h);
     AndroidDevice.rebootEmulator := fun _ _ h => (Ok tt, h);
     AndroidDevice.stopEmulator := fun _ _ h => (Ok tt, h);
     AndroidDevice.executeAdbCommand := fun _ _ h => scriptedAdb h;
     AndroidDevice.mountAsRootWritableSystem := fun _ h => (Ok tt, h);
     AndroidDevice.writeFileSync := fun _ _ h => (Ok tt, h) |}.

(** A host that answers an adb command by its text: the listing of the
    trust directory shows one certificate, of subject hash 9a5ba575, and the
    package list filtered by com.x shows that package. *)
Inductive AnsweringHost := answering.

Definition answerOf (command : string) : Result string :=
  if String.eqb command "root" then Ok "restarting adbd as root"
  else if String.eqb command
            ("shell " ++ quotationMark ++ "ls /data/misc/user/0/cacerts-added"
               ++ quotationMark)
  then Ok ("9a5ba575.0" ++ String "010" EmptyString)
  else if String.eqb command
            ("shell pm list packages | grep " ++ quotationMark
               ++ "com.x" ++ quotationMark)
  then Ok ("package:com.x" ++ String "010" EmptyString)
  else Throw (HostFailure "adb: command failed").

#[local] Instance answeringUtils : AndroidDevice.AndroidUtils AnsweringHost :=
  {| AndroidDevice.startEmulator := fun _ _ _ h => (Ok 5554, h);
     AndroidDevice.rebootEmulator := fun _ _ h => (Ok tt, h);
     AndroidDevice.stopEmulator := fun _ _ h => (Ok tt, h);
     AndroidDevice.executeAdbCommand := fun command _ h => (answerOf command, h);
     AndroidDevice.mountAsRootWritableSystem := fun _ h => (Ok tt, h);
     AndroidDevice.writeFileSync := fun _ _ h => (Ok tt, h) |}.

(** Helpers that take a certificate without DER bytes as one they cannot
    parse. *)
Definition unparsable : Exn := HostFailure "Too few bytes to parse DER.".

#[local] Instance scriptedCrypto : AndroidDevice.CryptoUtils :=
  {| AndroidDevice.getSubjectHashOld := fun certData =>
       match AndroidDevice.pemCertificate certData,
             AndroidDevice.derCertificate certData with
       | None, [] => Throw unparsable
       | _, _ => Ok "9a5ba575"
       end;
     AndroidDevice.derToPem := fun der =>
       match der with
       | [] => Throw unparsable
       | _ => Ok "-----BEGIN CERTIFICATE-----"
       end;
     AndroidDevice.tmpdir := "/tmp";
     AndroidDevice.pathJoin := fun a b => a ++ "/" ++ b |}.

Definition pixel : AndroidDevice.t :=
  AndroidDevice.new "Pixel_5_API_33" "Pixel 5 API 33" "mobile" "google_apis"
    (Version.OfString "13") false true.

Definition pixelPlayStore : AndroidDevice.t :=
  AndroidDevice.new "Pixel_5_API_33_PS" "Pixel 5 API 33" "mobile"
    "google_apis_playstore" (Version.OfString "13") true true.

Definition bootedPixel : AndroidDevice.t := AndroidDevice.setPort pixel 5554.

Definition someCert : AndroidDevice.SSLCertificateData :=
  AndroidDevice.BuildCert [Byte.x30; Byte.x82; Byte.x03; Byte.x5d] None.

(** A certificate without DER bytes and without PEM text. *)
Definition emptyCert : AndroidDevice.SSLCertificateData :=
  AndroidDevice.BuildCert [] None.

Definition answeringWorld (d : AndroidDevice.t) :
  AndroidDevice.World AnsweringHost :=
  AndroidDevice.BuildWorld d [] answering.

Definition worldOf (d : AndroidDevice.t) (script : ScriptedHost) :
  AndroidDevice.World ScriptedHost :=
  AndroidDevice.BuildWorld d [] script.

(* ===================================================================== *)
(** * Definitions used to state the further properties *)
(* ===================================================================== *)

(** Every code unit of the list is white space. *)
Definition allSpace (l : list ascii) : bool := forallb JsString.isWhiteSpace l.

(** A code unit that can stand in a version string: a digit, '-' or '.'. *)
Definition isVersionChar (c : ascii) : bool :=
  Version.isDigit c || Version.isSeparator c.

(** Every character class of the pattern accepts only code units that
    satisfy [ok]. *)
Fixpoint classesWithin (ok : ascii -> bool) (r : RegExp.Pattern) : Prop :=
  match r with
  | RegExp.CharClass p => forall c, p c = true -> ok c = true
  | RegExp.Seq r1 r2 | RegExp.Disj r1 r2 =>
      classesWithin ok r1 /\ classesWithin ok r2
  | RegExp.Star r | RegExp.Opt r | RegExp.Group _ r => classesWithin ok r
  | _ => True
  end.

(** Every captured text is made of code units that satisfy [ok]. *)
Definition capturesWithin (ok : ascii -> bool) (cs : RegExp.Captures) : Prop :=
  Forall (fun kv => forallb ok (snd kv) = true) cs.

(** A matcher that reaches its continuation only after consuming code
    units that satisfy [ok], and that keeps the captures within [ok]. *)
Definition matcherWithin (ok : ascii -> bool) (m : RegExp.Matcher) : Prop :=
  forall (x : RegExp.State) (k : RegExp.Continuation) (z : RegExp.State),
    capturesWithin ok (RegExp.captures x) ->
    m x k = Some z ->
    exists (y : RegExp.State) (pre : list ascii),
      k y = Some z /\
      RegExp.rest x = (pre ++ RegExp.rest y)%list /\
      forallb ok pre = true /\
      RegExp.endIndex y = (RegExp.endIndex x + length pre)%nat /\
      capturesWithin ok (RegExp.captures y).

(** Every key held by the map is in lower case. *)
Definition lowerKeys (m : CaseInsensitiveStringMap.t) : Prop :=
  forall k v, CaseInsensitiveStringMap.map m !! k = Some v ->
              JsString.toLowerCase k = k.

(** The string has neither a line feed nor a carriage return. *)
Definition noLineBreak (s : string) : bool :=
  forallb (fun c => negb (CaseInsensitiveStringMap.isLF c)
                    && negb (CaseInsensitiveStringMap.isCR c))
          (list_ascii_of_string s).

(** The lines, each but the last followed by the separator. *)
Fixpoint joinLines (sep : string) (lines : list string) : string :=
  match lines with
  | [] => EmptyString
  | [l] => l
  | l :: tl => l ++ sep ++ joinLines sep tl
  end.

Definition LF : string := String "010" EmptyString.
Definition CRLF : string := String "013" (String "010" EmptyString).

(* ===================================================================== *)
(** * Facts about the strings of the platform *)
(* ===================================================================== *)

Section StringFacts.

Import JsString.

Lemma startsWith_spec (p s : list ascii) :
  startsWith p s = true <-> exists b, s = (p ++ b)%list.
Proof.
  revert s. induction p as [| a p IH]; intros s; simpl.
  - split; [intros _; now exists s | reflexivity].
  - destruct s as [| c s].
    + split; [discriminate | intros [b Hb]; discriminate].
    + destruct (Ascii.eqb_spec a c) as [-> | N].
      * rewrite IH. split; intros [b Hb]; exists b; simpl in *; congruence.
      * split; [discriminate | intros [b Hb]; simpl in Hb; congruence].
Qed.

Lemma includesL_spec (p s : list ascii) :
  includesL p s = true <-> exists a b, s = (a ++ p ++ b)%list.
Proof.
  induction s as [| c s IH].
  - simpl. rewrite orb_false_r, startsWith_spec. split.
    + intros [b Hb]. now exists [], b.
    + intros (a & b & Hab). destruct a; [now exists b |]. discriminate.
  - cbn [includesL]. rewrite orb_true_iff, IH, startsWith_spec. split.
    + intros [[b Hb] | (a & b & Hab)].
      * now exists [], b.
      * exists (c :: a), b. simpl. now rewrite Hab.
    + intros (a & b & Hab). destruct a as [| x a]; simpl in Hab.
      * left. now exists b.
      * right. exists a, b. congruence.
Qed.

Lemma list_ascii_of_string_app (a b : string) :
  list_ascii_of_string (a ++ b)
  = (list_ascii_of_string a ++ list_ascii_of_string b)%list.
Proof. induction a as [| x a IH]; simpl; [reflexivity | now rewrite IH]. Qed.

Lemma string_of_list_ascii_app (a b : list ascii) :
  string_of_list_ascii (a ++ b)%list
  = string_of_list_ascii a ++ string_of_list_ascii b.
Proof. induction a as [| x a IH]; simpl; [reflexivity | now rewrite IH]. Qed.

(** [includes] tells whether the second string occurs in the first. *)
Lemma includes_spec (s p : string) :
  includes s p = true <-> exists a b, s = a ++ p ++ b.
Proof.
  unfold includes. rewrite includesL_spec. split.
  - intros (a & b & Hab).
    exists (string_of_list_ascii a), (string_of_list_ascii b).
    rewrite <- (string_of_list_ascii_of_string s), Hab.
    now rewrite !string_of_list_ascii_app, string_of_list_ascii_of_string.
  - intros (a & b & ->).
    exists (list_ascii_of_string a), (list_ascii_of_string b).
    now rewrite !list_ascii_of_string_app.
Qed.

Lemma trimStart_nil (l : list ascii) :
  trimStart l = [] <-> forallb isWhiteSpace l = true.
Proof.
  induction l as [| c l IH]; simpl.
  - tauto.
  - destruct (isWhiteSpace c); simpl; [exact IH |].
    split; discriminate.
Qed.

Lemma trimStart_forallb (l : list ascii) :
  forallb isWhiteSpace (trimStart l) = true -> trimStart l = [].
Proof.
  induction l as [| c l IH]; simpl; [reflexivity |].
  destruct (isWhiteSpace c) eqn:E; [exact IH |].
  simpl. rewrite E. discriminate.
Qed.

Lemma forallb_rev {A} (f : A -> bool) (l : list A) :
  forallb f (rev l) = forallb f l.
Proof.
  induction l as [| x l IH]; simpl; [reflexivity |].
  rewrite forallb_app, IH. simpl. rewrite andb_true_r. apply andb_comm.
Qed.

Lemma trimL_nil (l : list ascii) :
  trimL l = [] <-> forallb isWhiteSpace l = true.
Proof.
  unfold trimL, trimEnd. split.
  - intros E. apply trimStart_nil, trimStart_forallb.
    rewrite <- forallb_rev. apply trimStart_nil.
    destruct (trimStart (rev (trimStart l))); [reflexivity |].
    simpl in E. now destruct (rev l0).
  - intros E. apply trimStart_nil in E. now rewrite E.
Qed.

(** The trimmed string is empty exactly when every code unit of the string
    is white space. *)
Lemma trim_empty (s : string) :
  String.eqb (trim s) EmptyString
  = forallb isWhiteSpace (list_ascii_of_string s).
Proof.
  unfold trim.
  destruct (forallb isWhiteSpace (list_ascii_of_string s)) eqn:E.
  - apply trimL_nil in E. now rewrite E.
  - destruct (trimL (list_ascii_of_string s)) eqn:T; [| reflexivity].
    apply trimL_nil in T. congruence.
Qed.

Lemma splitFirst_before (sep : ascii) (a b : string) :
  hasNo sep a = true -> splitFirst sep (a ++ String sep b) = a.
Proof.
  unfold hasNo. induction a as [| x a IH]; simpl; intros Ha.
  - now rewrite Ascii.eqb_refl.
  - apply andb_true_iff in Ha as [Hx Ha]. apply negb_true_iff in Hx.
    now rewrite Hx, (IH Ha).
Qed.

Lemma splitFirst_whole (sep : ascii) (a : string) :
  hasNo sep a = true -> splitFirst sep a = a.
Proof.
  unfold hasNo. induction a as [| x a IH]; simpl; intros Ha.
  - reflexivity.
  - apply andb_true_iff in Ha as [Hx Ha]. apply negb_true_iff in Hx.
    now rewrite Hx, (IH Ha).
Qed.

End StringFacts.

(* ===================================================================== *)
(** * Numbers of the platform below 2^53 *)
(* ===================================================================== *)

Section NumberFacts.

Import JsNumber.

Lemma infinity_positive : 0 < infinity.
Proof. unfold infinity. apply Z.pow_pos_nonneg; lia. Qed.

Lemma roundNatural_nonneg (n : Z) : 0 <= n -> 0 <= roundNatural n.
Proof.
  intros Hn. unfold roundNatural.
  destruct (Z.ltb_spec n (2 ^ 53)); [exact Hn |].
  cbv zeta.
  match goal with |- context [(infinity <=? ?v)%Z] =>
    destruct (Z.leb_spec infinity v) as [_ | _];
      [pose proof infinity_positive; lia |]
  end.
  apply Z.shiftl_nonneg.
  assert (0 <= Z.shiftr n (Z.log2 n - 52)) by now apply Z.shiftr_nonneg.
  destruct (_ || _)%bool; lia.
Qed.

Lemma round_nonneg (n : Z) : 0 <= n -> 0 <= round n.
Proof.
  intros Hn. unfold round.
  destruct (Z.ltb_spec n 0); [lia |]. now apply roundNatural_nonneg.
Qed.

(** Up to 2^53 every natural number is a double. *)
Lemma round_exact (n : Z) : 0 <= n <= 2 ^ 53 -> round n = n.
Proof.
  intros [H0 H1]. unfold round.
  destruct (Z.ltb_spec n 0); [lia |].
  unfold roundNatural.
  destruct (Z.ltb_spec n (2 ^ 53)); [reflexivity |].
  assert (n = 2 ^ 53) as -> by lia. now vm_compute.
Qed.

Lemma toString_decimal (n : Z) : 0 <= n <= 2 ^ 53 -> toString n = decimal n.
Proof.
  intros [H0 H1]. unfold toString, toStringNatural.
  destruct (Z.ltb_spec n 0); [lia |].
  destruct (Z.leb_spec n (2 ^ 53)); [reflexivity | lia].
Qed.

End NumberFacts.

(* ===================================================================== *)
(** * Decimal numerals *)
(* ===================================================================== *)

Section DecimalFacts.

Import Version.

Lemma uintChars_digits (d : Decimal.uint) :
  forallb isDigit (uintChars d) = true.
Proof.
  unfold uintChars. induction d; simpl; try reflexivity; exact IHd.
Qed.

(** Reading the digits of [d] after those of the little-endian [lu]. *)
Lemma parseDigits_uint (d lu : Decimal.uint) :
  parseDigits (Z.of_N (DecimalPos.Unsigned.of_lu lu)) (uintChars d)
  = Z.of_N (DecimalPos.Unsigned.of_lu (Decimal.revapp d lu)).
Proof.
  unfold uintChars. revert lu.
  induction d; intros lu;
    cbn [NilEmpty.string_of_uint list_ascii_of_string parseDigits];
    [reflexivity | ..];
    match goal with
    | |- context [isDigit ?c] =>
        change (isDigit c) with true; cbv iota;
        let v := eval vm_compute in (JsString.code c) in
        change (JsString.code c) with v
    end;
    cbn [Decimal.revapp]; rewrite <- IHd; f_equal;
    cbn [DecimalPos.Unsigned.of_lu]; lia.
Qed.

Lemma nzhead_not_D0 (d d' : Decimal.uint) : Decimal.nzhead d <> Decimal.D0 d'.
Proof. induction d; simpl; try discriminate; exact IHd. Qed.

Lemma to_uint_normal (p : positive) :
  Decimal.unorm (Pos.to_uint p) = Pos.to_uint p.
Proof.
  rewrite <- (DecimalPos.Unsigned.to_of (Pos.to_uint p)).
  now rewrite DecimalPos.Unsigned.of_to.
Qed.

Lemma decimal_pos (p : positive) :
  JsNumber.decimal (Z.pos p) = NilEmpty.string_of_uint (Pos.to_uint p).
Proof.
  unfold JsNumber.decimal. simpl.
  pose proof (DecimalPos.Unsigned.to_uint_nonnil p) as N.
  now destruct (Pos.to_uint p).
Qed.

(** The numeral of a natural number is one the pattern accepts. *)
Lemma digitsOf_numeral (n : Z) : 0 <= n -> isNumeral (digitsOf n) = true.
Proof.
  intros Hn. destruct n as [| p | p]; [reflexivity | | lia].
  unfold digitsOf. rewrite decimal_pos.
  pose proof (to_uint_normal p) as U.
  pose proof (DecimalPos.Unsigned.to_uint_nonnil p) as N.
  pose proof (DecimalPos.Unsigned.to_uint_nonzero p) as NZ.
  pose proof (uintChars_digits (Pos.to_uint p)) as D. unfold uintChars in D.
  destruct (Pos.to_uint p) as [| d | d | d | d | d | d | d | d | d | d];
    try (simpl in D |- *; exact D); [contradiction |].
  exfalso. unfold Decimal.unorm in U. simpl in U.
  destruct (Decimal.nzhead d) eqn:E; try discriminate.
  - injection U as <-. now apply NZ.
  - exact (nzhead_not_D0 _ _ E).
Qed.

(** Reading the numeral of a natural number gives the double nearest to
    the number. *)
Lemma parseInt_digitsOf (n : Z) :
  0 <= n -> parseInt (digitsOf n) = JsNumber.round n.
Proof.
  intros Hn. destruct n as [| p | p]; [reflexivity | | lia].
  unfold digitsOf, parseInt. f_equal. rewrite decimal_pos.
  change 0 with (Z.of_N (DecimalPos.Unsigned.of_lu Decimal.Nil)).
  fold (uintChars (Pos.to_uint p)). rewrite parseDigits_uint.
  change (Decimal.revapp (Pos.to_uint p) Decimal.Nil)
    with (Decimal.rev (Pos.to_uint p)).
  now rewrite <- DecimalPos.Unsigned.of_uint_alt, DecimalPos.Unsigned.of_to.
Qed.

End DecimalFacts.

(* ===================================================================== *)
(** * The version pattern on well-formed input *)
(* ===================================================================== *)

Section PatternFacts.

Import RegExp Version.

Lemma clearCaptures_nil (cs : Captures) : clearCaptures [] cs = cs.
Proof.
  unfold clearCaptures. induction cs as [| kv cs IH]; [reflexivity |].
  simpl. f_equal. exact IH.
Qed.

Lemma repeatMatcher_S (fuel : nat) (m : Matcher) (ps : list nat)
      (x : State) (c : Continuation) :
  repeatMatcher (S fuel) m ps x c =
    match m (clear ps x)
            (fun y => if Nat.eqb (endIndex y) (endIndex x) then None
                      else repeatMatcher fuel m ps y c) with
    | Some z => Some z
    | None => c x
    end.
Proof. reflexivity. Qed.

(** The greedy star over digits takes all the digits ahead, when the
    continuation accepts what follows them. *)
Lemma repeat_digits (ds tl : list ascii) :
  forallb isDigit ds = true -> noDigitAhead tl = true ->
  forall (fuel i : nat) (caps : Captures) (c : Continuation) (z : State),
    (length ds <= fuel)%nat ->
    c (mkState (i + length ds) tl caps) = Some z ->
    repeatMatcher fuel (compile (CharClass isDigit)) []
                  (mkState i (ds ++ tl) caps) c = Some z.
Proof.
  intros Hds Htl. set (m := compile (CharClass isDigit)).
  induction ds as [| a ds IH]; intros fuel i caps c z Hf Hc.
  - simpl in Hc. rewrite Nat.add_0_r in Hc.
    destruct fuel; [exact Hc |].
    rewrite repeatMatcher_S. unfold m at 1.
    cbn [compile clear rest app].
    destruct tl as [| ch tl]; [exact Hc |].
    simpl in Htl. apply negb_true_iff in Htl. now rewrite Htl.
  - simpl in Hds. apply andb_true_iff in Hds as [Ha Hds].
    destruct fuel; [simpl in Hf; lia |].
    rewrite repeatMatcher_S. unfold m at 1.
    cbn [compile clear rest app endIndex captures].
    rewrite Ha. cbn [endIndex].
    rewrite (proj2 (Nat.eqb_neq (i + 1) i)) by lia.
    rewrite clearCaptures_nil. rewrite (IH Hds fuel (i + 1)%nat caps c z);
      [reflexivity | simpl in Hf; lia |].
    simpl in Hc. now replace (i + 1 + length ds)%nat with (i + S (length ds))%nat by lia.
Qed.

Lemma isZero_not_19 (a : ascii) : isZero a = true -> isDigit19 a = false.
Proof. unfold isZero. intros E. apply Ascii.eqb_eq in E. now subst a. Qed.

(** A numeral ahead, followed by no digit, is taken whole by the numeral
    of the pattern, when the continuation accepts what follows it. *)
Lemma numeral_match (ds tl : list ascii) (i : nat) (caps : Captures)
      (k : Continuation) (z : State) :
  isNumeral ds = true -> noDigitAhead tl = true ->
  k (mkState (i + length ds) tl caps) = Some z ->
  compile numeral (mkState i (ds ++ tl) caps) k = Some z.
Proof.
  intros Hn Htl Hk. destruct ds as [| a ds]; [discriminate |].
  simpl in Hn. unfold numeral. cbn [compile rest app].
  destruct (isZero a) eqn:Z.
  - rewrite (isZero_not_19 a Z) in Hn. simpl in Hn.
    destruct ds; [| discriminate].
    unfold advance. simpl in *. now rewrite Hk.
  - simpl in Hn. apply andb_true_iff in Hn as [H19 Hds]. rewrite H19.
    unfold advance. cbn [endIndex rest captures skipn parens].
    apply repeat_digits; [assumption | assumption | rewrite length_app; lia |].
    simpl in Hk. now replace (i + 1 + length ds)%nat with (i + S (length ds))%nat by lia.
Qed.

Lemma firstn_consumed (i : nat) (ds tl : list ascii) :
  firstn (i + length ds - i) (ds ++ tl) = ds.
Proof.
  replace (i + length ds - i)%nat with (length ds) by lia.
  apply take_app_length.
Qed.

Lemma execFrom_first (m : Matcher) (i : nat) (s : list ascii) (z : State) :
  m (mkState i s []) Some = Some z -> execFrom m i s = Some z.
Proof. intros E. destruct s; simpl; now rewrite E. Qed.

Lemma separator_not_digit (c : ascii) : isSeparator c = true -> isDigit c = false.
Proof.
  unfold isSeparator. intros E. apply orb_true_iff in E as [E | E];
    apply Ascii.eqb_eq in E; now subst c.
Qed.

Lemma compile_Seq (r1 r2 : Pattern) (x : State) (c : Continuation) :
  compile (Seq r1 r2) x c = compile r1 x (fun y => compile r2 y c).
Proof. reflexivity. Qed.

Lemma compile_Disj (r1 r2 : Pattern) (x : State) (c : Continuation) :
  compile (Disj r1 r2) x c
  = match compile r1 x c with
    | Some z => Some z
    | None => compile r2 x c
    end.
Proof. reflexivity. Qed.

Lemma compile_Group (n : nat) (r : Pattern) (x : State) (c : Continuation) :
  compile (Group n r) x c
  = compile r x (fun y =>
      c (setCapture n (firstn (endIndex y - endIndex x) (rest x)) y)).
Proof. reflexivity. Qed.

Lemma compile_CharClass (p : ascii -> bool) (i : nat) (ch : ascii)
      (tl : list ascii) (caps : Captures) (c : Continuation) :
  compile (CharClass p) (mkState i (ch :: tl) caps) c
  = if p ch then c (mkState (i + 1) tl caps) else None.
Proof. reflexivity. Qed.

Lemma compile_Opt (r : Pattern) (x : State) (c : Continuation) :
  compile (Opt r) x c
  = match compile r (clear (parens r) x)
            (fun y => if Nat.eqb (endIndex y) (endIndex x) then None else c y) with
    | Some z => Some z
    | None => c x
    end.
Proof. reflexivity. Qed.

Lemma compile_Backref (n : nat) (x : State) (c : Continuation) :
  compile (Backref n) x c
  = match capture n (captures x) with
    | None => c x
    | Some s =>
        if JsString.startsWith s (rest x) then c (advance (length s) x)
        else None
    end.
Proof. reflexivity. Qed.

Lemma group_numeral (g : nat) (ds tl : list ascii) (i : nat) (caps : Captures)
      (k : Continuation) (z : State) :
  isNumeral ds = true -> noDigitAhead tl = true ->
  k (mkState (i + length ds) tl ((g, ds) :: caps)) = Some z ->
  compile (Group g numeral) (mkState i (ds ++ tl) caps) k = Some z.
Proof.
  intros Hn Htl Hk. rewrite compile_Group.
  apply numeral_match; [assumption | assumption |].
  unfold setCapture. cbn [endIndex rest captures].
  now rewrite firstn_consumed.
Qed.

Lemma minor_taken (sep : ascii) (ds tl : list ascii) (i : nat) (caps : Captures)
      (k : Continuation) (z : State) :
  isSeparator sep = true -> isNumeral ds = true -> noDigitAhead tl = true ->
  clearCaptures [2; gSeparator; gMinor]%nat caps = caps ->
  k (mkState (i + 1 + length ds) tl
       ((2%nat, sep :: ds) :: (gMinor, ds) :: (gSeparator, [sep]) :: caps)) = Some z ->
  compile minorPart (mkState i (sep :: ds ++ tl) caps) k = Some z.
Proof.
  intros Hs Hn Htl Hc Hk. unfold minorPart. rewrite compile_Opt.
  unfold clear. change (parens _) with [2; gSeparator; gMinor]%nat.
  cbn [endIndex rest captures]. rewrite Hc.
  rewrite compile_Group, compile_Seq, compile_Group, compile_CharClass, Hs.
  unfold setCapture at 1. cbn [endIndex rest captures].
  replace (i + 1 - i)%nat with 1%nat by lia. cbn [firstn].
  rewrite (group_numeral gMinor ds tl (i + 1) _ _ z Hn Htl); [reflexivity |].
  unfold setCapture. cbn [endIndex rest captures].
  rewrite (proj2 (Nat.eqb_neq _ _)) by lia.
  replace (i + 1 + length ds - i)%nat with (S (length ds)) by lia.
  cbn [firstn]. now rewrite take_app_length.
Qed.

Lemma patch_taken (sep : ascii) (ds tl : list ascii) (i : nat) (caps : Captures)
      (k : Continuation) (z : State) :
  capture gSeparator caps = Some [sep] ->
  isNumeral ds = true -> noDigitAhead tl = true ->
  clearCaptures [5; gPatch]%nat caps = caps ->
  k (mkState (i + 1 + length ds) tl
       ((5%nat, sep :: ds) :: (gPatch, ds) :: caps)) = Some z ->
  compile patchPart (mkState i (sep :: ds ++ tl) caps) k = Some z.
Proof.
  intros Hs Hn Htl Hc Hk. unfold patchPart. rewrite compile_Opt.
  unfold clear. change (parens _) with [5; gPatch]%nat.
  cbn [endIndex rest captures]. rewrite Hc.
  rewrite compile_Group, compile_Seq, compile_Backref.
  cbn [endIndex rest captures]. rewrite Hs.
  cbn [JsString.startsWith]. rewrite Ascii.eqb_refl.
  unfold advance. cbn [endIndex rest captures length skipn].
  rewrite drop_0.
  rewrite (group_numeral gPatch ds tl (i + 1) _ _ z Hn Htl); [reflexivity |].
  unfold setCapture. cbn [endIndex rest captures].
  rewrite (proj2 (Nat.eqb_neq _ _)) by lia.
  replace (i + 1 + length ds - i)%nat with (S (length ds)) by lia.
  cbn [firstn]. now rewrite take_app_length.
Qed.

(** The first alternative of the numeral takes a zero, whatever follows. *)
Lemma group_zero (g : nat) (tl : list ascii) (i : nat) (caps : Captures)
      (k : Continuation) (z : State) :
  k (mkState (i + 1) tl ((g, ["0"%char]) :: caps)) = Some z ->
  compile (Group g numeral) (mkState i ("0"%char :: tl) caps) k = Some z.
Proof.
  intros Hk. rewrite compile_Group. unfold numeral.
  rewrite compile_Disj, compile_CharClass.
  change (isZero "0") with true. cbv iota.
  unfold setCapture. cbn [endIndex rest captures].
  pose proof (firstn_consumed i ["0"%char] tl) as F. simpl in F.
  now rewrite F, Hk.
Qed.

(** With no Separator captured, the backreference matches the empty string
    and the Patch group reads a numeral that follows at once. *)
Lemma patch_without_separator (ds tl : list ascii) (i : nat) (caps : Captures)
      (k : Continuation) (z : State) :
  capture gSeparator caps = None ->
  isNumeral ds = true -> noDigitAhead tl = true ->
  clearCaptures [5; gPatch]%nat caps = caps ->
  k (mkState (i + length ds) tl ((5%nat, ds) :: (gPatch, ds) :: caps)) = Some z ->
  compile patchPart (mkState i (ds ++ tl) caps) k = Some z.
Proof.
  intros Hs Hn Htl Hc Hk. unfold patchPart. rewrite compile_Opt.
  unfold clear. change (parens _) with [5; gPatch]%nat.
  cbn [endIndex rest captures]. rewrite Hc.
  rewrite compile_Group, compile_Seq, compile_Backref.
  cbn [endIndex rest captures]. rewrite Hs.
  rewrite (group_numeral gPatch ds tl i _ _ z Hn Htl); [reflexivity |].
  unfold setCapture. cbn [endIndex rest captures].
  assert (L : (0 < length ds)%nat) by (destruct ds; [discriminate | simpl; lia]).
  rewrite (proj2 (Nat.eqb_neq _ _)) by lia.
  now rewrite firstn_consumed.
Qed.

Lemma minor_skipped (i : nat) (s : list ascii) (caps : Captures) (k : Continuation) :
  match s with [] => true | c :: _ => negb (isSeparator c) end = true ->
  compile minorPart (mkState i s caps) k = k (mkState i s caps).
Proof.
  intros Hs. unfold minorPart.
  rewrite compile_Opt, compile_Group, compile_Seq, compile_Group.
  unfold clear. cbn [endIndex rest captures].
  destruct s as [| c s]; [reflexivity |].
  rewrite compile_CharClass. apply negb_true_iff in Hs. now rewrite Hs.
Qed.

Lemma patch_skipped_at_end (i : nat) (caps : Captures) (k : Continuation) :
  compile patchPart (mkState i [] caps) k = k (mkState i [] caps).
Proof.
  unfold patchPart.
  rewrite compile_Opt, compile_Group, compile_Seq, compile_Backref.
  unfold clear. cbn [endIndex rest captures].
  destruct (capture gSeparator _) as [[| c s] |]; reflexivity.
Qed.

Lemma versionRegex_run (s : list ascii) (z : State) :
  compile (Group gMajor numeral) (mkState 0 s [])
    (fun y => compile minorPart y
       (fun y => compile patchPart y
          (fun y => compile AssertEnd y Some))) = Some z ->
  execFrom (compile versionRegex) 0 s = Some z.
Proof. intros E. apply execFrom_first. exact E. Qed.

Lemma numeral_head_digit (ds tl : list ascii) :
  isNumeral ds = true -> noDigitAhead tl = true ->
  match (ds ++ tl)%list with [] => true | c :: _ => negb (isSeparator c) end = true.
Proof.
  destruct ds as [| c ds]; [discriminate |]. simpl. intros H _.
  destruct (isSeparator c) eqn:S; [| reflexivity].
  apply separator_not_digit in S.
  apply orb_true_iff in H as [H | H]; apply andb_true_iff in H as [H _].
  - unfold isZero in H. apply Ascii.eqb_eq in H. now subst c.
  - unfold isDigit19 in H. unfold isDigit in S.
    apply andb_true_iff in H as [H1 H2]. apply andb_false_iff in S as [S | S].
    + apply N.leb_le in H1. apply N.leb_gt in S. lia.
    + now rewrite H2 in S.
Qed.

(** x *)
Lemma exec_major (ds : list ascii) :
  isNumeral ds = true ->
  execFrom (compile versionRegex) 0 ds
  = Some (mkState (length ds) [] [(gMajor, ds)]).
Proof.
  intros N1. apply versionRegex_run.
  rewrite <- (app_nil_r ds) at 1.
  apply group_numeral; [assumption | reflexivity |].
  rewrite minor_skipped by reflexivity.
  now rewrite patch_skipped_at_end.
Qed.

(** x.y or x-y *)
Lemma exec_major_minor (ds1 ds2 : list ascii) (sep : ascii) :
  isNumeral ds1 = true -> isNumeral ds2 = true -> isSeparator sep = true ->
  execFrom (compile versionRegex) 0 (ds1 ++ sep :: ds2)
  = Some (mkState (length ds1 + 1 + length ds2) []
            [(2%nat, sep :: ds2); (gMinor, ds2); (gSeparator, [sep]); (gMajor, ds1)]).
Proof.
  intros N1 N2 S. pose proof (separator_not_digit sep S) as SD.
  apply versionRegex_run.
  apply group_numeral; [assumption | simpl; now rewrite SD |].
  rewrite <- (app_nil_r ds2) at 1.
  apply minor_taken; [assumption | assumption | reflexivity | reflexivity |].
  now rewrite patch_skipped_at_end.
Qed.

(** x.y.z or x-y-z *)
Lemma exec_major_minor_patch (ds1 ds2 ds3 : list ascii) (sep : ascii) :
  isNumeral ds1 = true -> isNumeral ds2 = true -> isNumeral ds3 = true ->
  isSeparator sep = true ->
  execFrom (compile versionRegex) 0 (ds1 ++ sep :: ds2 ++ sep :: ds3)
  = Some (mkState (length ds1 + 1 + length ds2 + 1 + length ds3) []
            [(5%nat, sep :: ds3); (gPatch, ds3);
             (2%nat, sep :: ds2); (gMinor, ds2); (gSeparator, [sep]);
             (gMajor, ds1)]).
Proof.
  intros N1 N2 N3 S. pose proof (separator_not_digit sep S) as SD.
  apply versionRegex_run.
  apply group_numeral; [assumption | simpl; now rewrite SD |].
  apply minor_taken; [assumption | assumption | simpl; now rewrite SD | reflexivity |].
  rewrite <- (app_nil_r ds3) at 1.
  apply patch_taken; [reflexivity | assumption | reflexivity | reflexivity |].
  reflexivity.
Qed.

(** A zero and, right after it, a numeral: Major 0 and Patch. *)
Lemma exec_zero_numeral (ds : list ascii) :
  isNumeral ds = true ->
  execFrom (compile versionRegex) 0 ("0"%char :: ds)
  = Some (mkState (1 + length ds) [] [(5%nat, ds); (gPatch, ds); (gMajor, ["0"%char])]).
Proof.
  intros N1. apply versionRegex_run.
  apply group_zero. cbn [Nat.add].
  pose proof (numeral_head_digit ds [] N1 eq_refl) as HD.
  rewrite app_nil_r in HD. rewrite minor_skipped by exact HD.
  rewrite <- (app_nil_r ds) at 1.
  apply patch_without_separator;
    [reflexivity | assumption | reflexivity | reflexivity | reflexivity].
Qed.

(** ** [Version.from] on well-formed strings, and on a zero before a numeral *)

Lemma numeral_all_digits (ds : list ascii) :
  isNumeral ds = true -> forallb isDigit ds = true.
Proof.
  destruct ds as [| c ds]; [discriminate |]. simpl. intros H.
  apply orb_true_iff in H as [H | H]; apply andb_true_iff in H as [H1 H2].
  - unfold isZero in H1. apply Ascii.eqb_eq in H1. subst c.
    now destruct ds.
  - rewrite H2, andb_true_r. unfold isDigit19 in H1. unfold isDigit.
    apply andb_true_iff in H1 as [L U]. rewrite U, andb_true_r.
    apply N.leb_le in L. apply N.leb_le. lia.
Qed.

Lemma digit_not_space (c : ascii) :
  isDigit c = true -> JsString.isWhiteSpace c = false.
Proof.
  unfold isDigit, JsString.isWhiteSpace. intros H.
  apply andb_true_iff in H as [L U].
  apply N.leb_le in L. apply N.leb_le in U.
  repeat (apply orb_false_iff; split).
  - apply andb_false_iff. right. apply N.leb_gt. lia.
  - apply N.eqb_neq. lia.
  - apply N.eqb_neq. lia.
Qed.

Lemma separator_not_space (c : ascii) :
  isSeparator c = true -> JsString.isWhiteSpace c = false.
Proof.
  unfold isSeparator. intros E. apply orb_true_iff in E as [E | E];
    apply Ascii.eqb_eq in E; now subst c.
Qed.

Lemma numeral_noSpace (ds : list ascii) : isNumeral ds = true -> noSpace ds = true.
Proof.
  intros H. apply numeral_all_digits in H. unfold noSpace.
  induction ds as [| c ds IH]; [reflexivity |].
  simpl in *. apply andb_true_iff in H as [H1 H2].
  now rewrite (digit_not_space c H1), (IH H2).
Qed.

Lemma trimStart_noSpace (l : list ascii) :
  noSpace l = true -> JsString.trimStart l = l.
Proof.
  destruct l as [| c l]; [reflexivity |]. simpl. intros H.
  apply andb_true_iff in H as [H _]. apply negb_true_iff in H. now rewrite H.
Qed.

Lemma trimL_noSpace (l : list ascii) : noSpace l = true -> JsString.trimL l = l.
Proof.
  intros H. unfold JsString.trimL, JsString.trimEnd.
  rewrite (trimStart_noSpace l H), trimStart_noSpace, rev_involutive; [reflexivity |].
  unfold noSpace. now rewrite forallb_rev.
Qed.

Lemma from_chars (l : list ascii) (z : State) :
  noSpace l = true ->
  execFrom (compile versionRegex) 0 l = Some z ->
  from (string_of_list_ascii l)
  = Some (Version (groupNumber gMajor (captures z))
                  (groupNumber gMinor (captures z))
                  (groupNumber gPatch (captures z))).
Proof.
  intros Hl E. unfold from, exec, JsString.trim.
  rewrite !list_ascii_of_string_of_list_ascii, (trimL_noSpace l Hl), E.
  reflexivity.
Qed.

(** The decimal numerals of natural numbers, alone or joined by one
    separator, parse to the doubles nearest to these numbers. *)
Lemma from_decimal (x y z : Z) (sep : ascii) :
  0 <= x -> 0 <= y -> 0 <= z -> isSeparator sep = true ->
  let X := JsNumber.decimal x in
  let Y := JsNumber.decimal y in
  let Z := JsNumber.decimal z in
  from X = Some (Version (JsNumber.round x) 0 0) /\
  from (X ++ String sep Y) = Some (Version (JsNumber.round x) (JsNumber.round y) 0) /\
  from (X ++ String sep (Y ++ String sep Z))
  = Some (Version (JsNumber.round x) (JsNumber.round y) (JsNumber.round z)).
Proof.
  intros Hx Hy Hz Hs. cbv zeta.
  pose proof (digitsOf_numeral x Hx) as Nx.
  pose proof (digitsOf_numeral y Hy) as Ny.
  pose proof (digitsOf_numeral z Hz) as Nz.
  pose proof (numeral_noSpace _ Nx) as Sx.
  pose proof (numeral_noSpace _ Ny) as Sy.
  pose proof (numeral_noSpace _ Nz) as Sz.
  pose proof (separator_not_space sep Hs) as Ss.
  split; [| split].
  - rewrite <- (string_of_list_ascii_of_string (JsNumber.decimal x)).
    fold (digitsOf x).
    rewrite (from_chars _ _ Sx (exec_major _ Nx)). cbn [captures].
    unfold groupNumber. simpl capture. cbv iota.
    now rewrite (parseInt_digitsOf x Hx).
  - rewrite <- (string_of_list_ascii_of_string (_ ++ String sep _)).
    rewrite list_ascii_of_string_app. cbn [list_ascii_of_string].
    fold (digitsOf x). fold (digitsOf y).
    assert (S2 : noSpace (digitsOf x ++ sep :: digitsOf y) = true).
    { unfold noSpace in *. rewrite forallb_app. cbn [forallb].
      now rewrite Sx, Sy, Ss. }
    rewrite (from_chars _ _ S2 (exec_major_minor _ _ sep Nx Ny Hs)).
    cbn [captures]. unfold groupNumber. simpl capture. cbv iota.
    now rewrite (parseInt_digitsOf x Hx), (parseInt_digitsOf y Hy).
  - rewrite <- (string_of_list_ascii_of_string (_ ++ String sep (_ ++ _))).
    rewrite list_ascii_of_string_app. cbn [list_ascii_of_string].
    rewrite list_ascii_of_string_app. cbn [list_ascii_of_string].
    fold (digitsOf x). fold (digitsOf y). fold (digitsOf z).
    assert (S3 : noSpace (digitsOf x ++ sep :: digitsOf y ++ sep :: digitsOf z) = true).
    { unfold noSpace in *. rewrite forallb_app. cbn [forallb].
      rewrite forallb_app. cbn [forallb].
      now rewrite Sx, Sy, Sz, Ss. }
    rewrite (from_chars _ _ S3 (exec_major_minor_patch _ _ _ sep Nx Ny Nz Hs)).
    cbn [captures]. unfold groupNumber. simpl capture. cbv iota.
    now rewrite (parseInt_digitsOf x Hx), (parseInt_digitsOf y Hy),
      (parseInt_digitsOf z Hz).
Qed.

Lemma numberToString_decimal (n : Z) :
  0 <= n <= 2 ^ 53 -> numberToString n = JsNumber.decimal n.
Proof. exact (toString_decimal n). Qed.

(** For natural numbers x, y and z up to 2^53 (each is then a double,
    printed as its decimal numeral), every string x, x.y, x.y.z, x-y or
    x-y-z made of their numerals parses to the version of these numbers,
    the missing ones being 0, and [toString] prints that version with
    dots. *)
Theorem from_canonical (x y z : Z) (sep : ascii) :
  0 <= x <= 2 ^ 53 -> 0 <= y <= 2 ^ 53 -> 0 <= z <= 2 ^ 53 ->
  isSeparator sep = true ->
  let X := numberToString x in
  let Y := numberToString y in
  let Z := numberToString z in
  from X = Some (Version x 0 0) /\
  from (X ++ String sep Y) = Some (Version x y 0) /\
  from (X ++ String sep (Y ++ String sep Z)) = Some (Version x y z) /\
  toString (Version x y z) = X ++ "." ++ Y ++ "." ++ Z.
Proof.
  intros Hx Hy Hz Hs. cbv zeta.
  destruct (from_decimal x y z sep (proj1 Hx) (proj1 Hy) (proj1 Hz) Hs)
    as (F1 & F2 & F3).
  rewrite (round_exact x Hx) in F1, F2, F3.
  rewrite (round_exact y Hy) in F2, F3. rewrite (round_exact z Hz) in F3.
  unfold toString. cbn [major minor patch].
  rewrite (numberToString_decimal x Hx), (numberToString_decimal y Hy),
    (numberToString_decimal z Hz).
  repeat split; assumption.
Qed.

(** A zero written before the numeral of a natural number is read as Major
    0 and Patch the double nearest to the number. *)
Lemma from_zero_then_decimal (n : Z) :
  0 <= n ->
  from (String "0" (JsNumber.decimal n)) = Some (Version 0 0 (JsNumber.round n)).
Proof.
  intros Hn. pose proof (digitsOf_numeral n Hn) as Nn.
  rewrite <- (string_of_list_ascii_of_string (String "0" (JsNumber.decimal n))).
  cbn [list_ascii_of_string]. fold (digitsOf n).
  assert (S0 : noSpace ("0"%char :: digitsOf n) = true)
    by (unfold noSpace; cbn [forallb]; apply (numeral_noSpace _ Nn)).
  rewrite (from_chars _ _ S0 (exec_zero_numeral _ Nn)).
  cbn [captures]. unfold groupNumber. simpl capture. cbv iota.
  now rewrite (parseInt_digitsOf n Hn).
Qed.

(** A zero written before the numeral of a natural number up to 2^53
    is not refused: it is read as Major 0 and Patch n. *)
Theorem from_zero_then_numeral (n : Z) :
  0 <= n <= 2 ^ 53 ->
  from (String "0" (numberToString n)) = Some (Version 0 0 n).
Proof.
  intros Hn. rewrite (numberToString_decimal n Hn).
  rewrite (from_zero_then_decimal n (proj1 Hn)). now rewrite (round_exact n Hn).
Qed.

End PatternFacts.

(* ===================================================================== *)
(** * Properties of Version *)
(* ===================================================================== *)

Section VersionProperties.

Import Version.

Variable localeCompareAccent : string -> string -> Z.

Local Abbreviation compare := (Version.compare localeCompareAccent).

Lemma compare_resolved (v1 v2 : Operand) (a b : Version.t) :
  resolve v1 = Some a -> resolve v2 = Some b ->
  compare v1 v2 =
    if (doubleWeight a =? doubleWeight b)%Z then Ok 0
    else if (doubleWeight a <? doubleWeight b)%Z then Ok (-1) else Ok 1.
Proof.
  intros H1 H2. unfold Version.compare. rewrite H1, H2. reflexivity.
Qed.

Lemma compare_doubleWeights (v1 v2 : Operand) (a b : Version.t) :
  resolve v1 = Some a -> resolve v2 = Some b ->
  compare v1 v2 = Ok (Z.sgn (doubleWeight a - doubleWeight b)).
Proof.
  intros H1 H2. rewrite (compare_resolved _ _ _ _ H1 H2).
  destruct (Z.eqb_spec (doubleWeight a) (doubleWeight b)) as [E | N].
  - rewrite E, Z.sub_diag. reflexivity.
  - destruct (Z.ltb_spec (doubleWeight a) (doubleWeight b)) as [L | G].
    + rewrite (proj2 (Z.sgn_neg_iff _)) by lia. reflexivity.
    + rewrite (proj2 (Z.sgn_pos_iff _)) by lia. reflexivity.
Qed.

(** With natural components and a weighted sum of at most 2^53, the sum in
    doubles is the exact one: no step of it is rounded. *)
Lemma doubleWeight_exact (a : Version.t) : exactWeight a -> doubleWeight a = weight a.
Proof.
  unfold exactWeight, doubleWeight, weight, JsNumber.add, JsNumber.mul.
  intros (H1 & H2 & H3 & H4).
  rewrite (round_exact (major a * 100)) by lia.
  rewrite (round_exact (minor a * 10)) by lia.
  rewrite (round_exact (major a * 100 + minor a * 10)) by lia.
  apply round_exact. lia.
Qed.

(** C1. When both operands of [compare] parse as numeric versions, the
    result is the sign of the difference of their weighted sums
    major*100 + minor*10 + patch as the doubles of the platform give them;
    and it is the sign of the difference of the exact weighted sums when
    the components are natural numbers and the sums are at most 2^53. *)
Theorem compare_numeric_is_sign_of_weights (v1 v2 : Operand) (a b : Version.t) :
  resolve v1 = Some a -> resolve v2 = Some b ->
  compare v1 v2 = Ok (Z.sgn (doubleWeight a - doubleWeight b)) /\
  (exactWeight a -> exactWeight b ->
   compare v1 v2 = Ok (Z.sgn (weight a - weight b))).
Proof.
  intros H1 H2. split; [now apply compare_doubleWeights |].
  intros Ea Eb. rewrite (compare_doubleWeights _ _ _ _ H1 H2).
  now rewrite (doubleWeight_exact a Ea), (doubleWeight_exact b Eb).
Qed.

Lemma resolve_None_string (v : Operand) :
  resolve v = None -> exists s, v = OfString s /\ from s = None.
Proof.
  destruct v as [s | v]; simpl; [eauto | discriminate].
Qed.

(** C2. When both operands of [compare] fail to parse (two codenames),
    both are strings, and [compare] returns 0 when the collation of the
    host finds them equal and throws the codename-comparison error when it
    finds them different; it never returns an ordering (1 or -1) for them.
    Under a collation that ignores case, two strings with the same
    lower-case form compare as 0. *)
Theorem compare_codenames (v1 v2 : Operand) :
  resolve v1 = None -> resolve v2 = None ->
  exists s1 s2,
    v1 = OfString s1 /\ v2 = OfString s2 /\
    (localeCompareAccent s1 s2 = 0 -> compare v1 v2 = Ok 0) /\
    (localeCompareAccent s1 s2 <> 0 ->
       compare v1 v2 = Throw (ErrorOfMessage "error:version:codename:comparing")) /\
    (ignoresCase localeCompareAccent ->
     JsString.toLowerCase s1 = JsString.toLowerCase s2 ->
     compare v1 v2 = Ok 0) /\
    compare v1 v2 <> Ok 1 /\ compare v1 v2 <> Ok (-1).
Proof.
  intros H1 H2.
  destruct (resolve_None_string _ H1) as (s1 & -> & F1).
  destruct (resolve_None_string _ H2) as (s2 & -> & F2).
  exists s1, s2. unfold Version.compare. simpl. rewrite F1, F2.
  split; [reflexivity |]. split; [reflexivity |].
  split; [| split; [| split; [| split]]].
  - intros E. now rewrite E.
  - intros N. now destruct (Z.eqb_spec (localeCompareAccent s1 s2) 0).
  - intros I E. now rewrite (I s1 s2 E).
  - now destruct (localeCompareAccent s1 s2 =? 0)%Z.
  - now destruct (localeCompareAccent s1 s2 =? 0)%Z.
Qed.

(** C3. When exactly one operand of [compare] parses as a numeric version,
    the other one (the codename) is the newer: the result is 1 when the
    codename comes first and -1 when it comes second, whatever the numbers
    of the numeric operand are. *)
Theorem compare_codename_is_newer (v1 v2 : Operand) (n : Version.t) :
  (resolve v1 = None -> resolve v2 = Some n -> compare v1 v2 = Ok 1) /\
  (resolve v1 = Some n -> resolve v2 = None -> compare v1 v2 = Ok (-1)).
Proof.
  split; intros H1 H2; unfold Version.compare; rewrite H1, H2; reflexivity.
Qed.

End VersionProperties.

(** The collation of the root locale ignores case. *)
Lemma rootCompareAccent_ignoresCase : ignoresCase rootCompareAccent.
Proof.
  intros a b E. unfold rootCompareAccent, collationKey. rewrite E.
  match goal with |- context [String.compare ?k ?k] =>
    pose proof (String.compare_antisym k k) as A;
      destruct (String.compare k k); simpl in A; congruence
  end.
Qed.

Lemma rootCompareAccent_refl (s : string) : rootCompareAccent s s = 0.
Proof. now apply rootCompareAccent_ignoresCase. Qed.

(** The example of C1: 1.0.10 and 1.1.0 are different versions with the same
    weighted sum 110, so they compare as equal. *)
Lemma compare_1_0_10_with_1_1_0 :
  Version.from "1.0.10" = Some (Version.Version 1 0 10) /\
  Version.from "1.1.0" = Some (Version.Version 1 1 0) /\
  Version.compare rootCompareAccent
    (Version.OfString "1.0.10") (Version.OfString "1.1.0") = Ok 0.
Proof.
  split; [vm_compute; reflexivity | split; [vm_compute; reflexivity |]].
  apply (proj2 (compare_numeric_is_sign_of_weights rootCompareAccent
                  (Version.OfString "1.0.10") (Version.OfString "1.1.0")
                  (Version.Version 1 0 10) (Version.Version 1 1 0)
                  ltac:(vm_compute; reflexivity) ltac:(vm_compute; reflexivity)));
    unfold exactWeight, weight; simpl; lia.
Defined.

(** C1 as the specification words it, with the exact weighted sums for
    every two numeric operands, does not hold: the sums of 90071992547409.9.3
    and 90071992547409.9.2 are 2^53 + 1 and 2^53, the first is not a double
    and is rounded to the second, and the two versions compare as equal. *)
Lemma compare_rounds_weighted_sums :
  let a := Version.Version 90071992547409 9 3 in
  let b := Version.Version 90071992547409 9 2 in
  Version.resolve (Version.OfString "90071992547409.9.3") = Some a /\
  Version.resolve (Version.OfString "90071992547409.9.2") = Some b /\
  weight a = 2 ^ 53 + 1 /\ weight b = 2 ^ 53 /\
  Z.sgn (weight a - weight b) = 1 /\
  Version.compare rootCompareAccent
    (Version.OfString "90071992547409.9.3")
    (Version.OfString "90071992547409.9.2") = Ok 0 /\
  Version.compare rootCompareAccent
    (Version.OfString "90071992547409.9.3")
    (Version.OfString "90071992547409.9.2")
  <> Ok (Z.sgn (weight a - weight b)).
Proof. vm_compute. repeat split; try reflexivity. discriminate. Qed.

(** Past 2^53 a numeral is read as the double nearest to it, and from 10^21
    on a number is printed with an exponent, a text that does not parse. *)
Example from_rounds_and_toString_exponent :
  Version.from "9007199254740993"
  = Some (Version.Version 9007199254740992 0 0) /\
  Version.from "09007199254740993"
  = Some (Version.Version 0 0 9007199254740992) /\
  Version.from "1000000000000000000000" = Some (Version.Version (10 ^ 21) 0 0) /\
  Version.toString (Version.Version (10 ^ 21) 0 0) = "1e+21.0.0" /\
  Version.from "1e+21.0.0" = None /\
  Version.toString (Version.Version (2 ^ 60) 0 0) = "1152921504606847000.0.0" /\
  Version.numberToString (JsNumber.round (10 ^ 23)) = "1e+23" /\
  Version.numberToString (JsNumber.round (10 ^ 400)) = "Infinity".
Proof. vm_compute. repeat split; reflexivity. Qed.

(** Two spellings of one codename compare as equal under the root
    collation, which ignores case. *)
Lemma compare_Tiramisu_with_TIRAMISU :
  Version.compare rootCompareAccent
    (Version.OfString "Tiramisu") (Version.OfString "TIRAMISU") = Ok 0.
Proof.
  destruct (compare_codenames rootCompareAccent
              (Version.OfString "Tiramisu") (Version.OfString "TIRAMISU")
              ltac:(vm_compute; reflexivity) ltac:(vm_compute; reflexivity))
    as (s1 & s2 & E1 & E2 & _ & _ & C & _).
  injection E1 as <-. injection E2 as <-.
  apply C; [exact rootCompareAccent_ignoresCase | vm_compute; reflexivity].
Defined.

(** C2 as the specification words it, with an error for every two
    codenames that differ, does not hold: the root collation ignores the
    control character U+0001, so that Tiramisu and Tiramisu followed by
    U+0001, which differ also when case is ignored, compare as equal. *)
Lemma compare_codenames_apart_by_control_character :
  Version.resolve (Version.OfString "Tiramisu") = None /\
  Version.resolve (Version.OfString ("Tiramisu" ++ startOfHeading)) = None /\
  JsString.toLowerCase "Tiramisu"
  <> JsString.toLowerCase ("Tiramisu" ++ startOfHeading) /\
  Version.compare rootCompareAccent
    (Version.OfString "Tiramisu")
    (Version.OfString ("Tiramisu" ++ startOfHeading)) = Ok 0 /\
  Version.compare rootCompareAccent
    (Version.OfString "Tiramisu")
    (Version.OfString ("Tiramisu" ++ startOfHeading))
  <> Throw (ErrorOfMessage "error:version:codename:comparing").
Proof. vm_compute. repeat split; try reflexivity; discriminate. Qed.

(** Two different codenames cannot be compared. *)
Example compare_Tiramisu_with_UpsideDownCake :
  Version.compare rootCompareAccent
    (Version.OfString "Tiramisu") (Version.OfString "UpsideDownCake")
  = Throw (ErrorOfMessage "error:version:codename:comparing").
Proof. vm_compute. reflexivity. Qed.

(** The example of C3: 99.0.0 is older than the codename Tiramisu. *)
Lemma compare_99_0_0_with_Tiramisu :
  Version.compare rootCompareAccent
    (Version.OfString "99.0.0") (Version.OfString "Tiramisu") = Ok (-1) /\
  Version.compare rootCompareAccent
    (Version.OfString "Tiramisu") (Version.OfString "99.0.0") = Ok 1.
Proof.
  split.
  - apply (proj2 (compare_codename_is_newer rootCompareAccent
             (Version.OfString "99.0.0") (Version.OfString "Tiramisu")
             (Version.Version 99 0 0))); vm_compute; reflexivity.
  - apply (proj1 (compare_codename_is_newer rootCompareAccent
             (Version.OfString "Tiramisu") (Version.OfString "99.0.0")
             (Version.Version 99 0 0))); vm_compute; reflexivity.
Defined.

(** C4. [Version.from] does not return null for every string with a leading
    zero: in "01" the optional Separator-and-Minor group takes no part, the
    backreference to Separator then matches the empty string, and the
    pattern reads "01" as Major 0 followed by Patch 1. The same happens for
    "00" and "012", while "001.002", "3.1-4", "7..8" and a codename are
    refused. *)
Theorem from_accepts_leading_zero :
  Version.from "01" = Some (Version.Version 0 0 1) /\
  Version.from "00" = Some (Version.Version 0 0 0) /\
  Version.from "012" = Some (Version.Version 0 0 12) /\
  Version.toString (Version.Version 0 0 1) = "0.0.1" /\
  Version.from "001.002" = None /\
  Version.from "3.1-4" = None /\
  Version.from "7..8" = None /\
  Version.from "Tiramisu" = None.
Proof. vm_compute. repeat split; reflexivity. Qed.

(* ===================================================================== *)
(** * Properties of CaseInsensitiveStringMap *)
(* ===================================================================== *)

Section MapProperties.

Import CaseInsensitiveStringMap.

Lemma matchSeparator_first (a b : string) (c : ascii) :
  hasNoSeparator a = true -> isKeyValueSeparator c = true ->
  matchSeparator (a ++ String c b) = Some (String.length a).
Proof.
  unfold hasNoSeparator. induction a as [| x a IH]; simpl; intros Ha Hc.
  - rewrite Hc. reflexivity.
  - apply andb_true_iff in Ha as [Hx Ha]. apply negb_true_iff in Hx.
    rewrite Hx, (IH Ha Hc). reflexivity.
Qed.

Lemma matchSeparator_none (line : string) :
  hasNoSeparator line = true -> matchSeparator line = None.
Proof.
  unfold hasNoSeparator. induction line as [| x a IH]; simpl; intros Ha.
  - reflexivity.
  - apply andb_true_iff in Ha as [Hx Ha]. apply negb_true_iff in Hx.
    rewrite Hx, (IH Ha). reflexivity.
Qed.

Lemma substring_all (s : string) : substring 0 (String.length s) s = s.
Proof. induction s as [| x s IH]; simpl; [reflexivity | now rewrite IH]. Qed.

Lemma slice_prefix (a b : string) :
  slice (a ++ b) 0 (String.length a) = a.
Proof.
  unfold slice. rewrite Nat.sub_0_r.
  induction a as [| x a IH]; simpl.
  - destruct b; reflexivity.
  - now rewrite IH.
Qed.

Lemma length_append (a b : string) :
  String.length (a ++ b) = (String.length a + String.length b)%nat.
Proof. induction a as [| x a IH]; simpl; [reflexivity | now rewrite IH]. Qed.

Lemma sliceFrom_suffix (a b : string) (c : ascii) :
  sliceFrom (a ++ String c b) (String.length a + 1) = b.
Proof.
  unfold sliceFrom. rewrite length_append. simpl.
  replace (String.length a + S (String.length b) - (String.length a + 1))%nat
    with (String.length b) by lia.
  induction a as [| x a IH]; simpl.
  - apply substring_all.
  - exact IH.
Qed.

Lemma get_set (m : t) (k v key : string) :
  get (set m k v) key =
    if String.eqb (JsString.toLowerCase k) (JsString.toLowerCase key)
    then Some v else get m key.
Proof.
  unfold get, set. simpl.
  destruct (String.eqb_spec (JsString.toLowerCase k) (JsString.toLowerCase key)) as [E | N].
  - rewrite E. apply lookup_insert_eq.
  - now apply lookup_insert_ne.
Qed.

Lemma addLine_entryOf (m : t) (line : string) :
  addLine m line =
    match entryOf line with
    | Some (k, v) => set m k v
    | None => m
    end.
Proof. unfold addLine, entryOf. destruct (matchSeparator line); reflexivity. Qed.

Lemma get_fold_addLine (lines : list string) (m : t) (key : string) :
  get (fold_left addLine lines m) key =
    match lookupLast key (omap entryOf lines) with
    | Some v => Some v
    | None => get m key
    end.
Proof.
  revert m. induction lines as [| l ls IH]; intros m.
  - reflexivity.
  - change (fold_left addLine (l :: ls) m) with (fold_left addLine ls (addLine m l)).
    change (omap entryOf (l :: ls))
      with (match entryOf l with
            | Some e => e :: omap entryOf ls
            | None => omap entryOf ls
            end).
    rewrite IH, addLine_entryOf. clear IH.
    destruct (entryOf l) as [[k v] |]; [| reflexivity].
    cbn [lookupLast].
    destruct (lookupLast key (omap entryOf ls)); [reflexivity |].
    rewrite get_set.
    now destruct (String.eqb (JsString.toLowerCase k) (JsString.toLowerCase key)).
Qed.

(** C5. [fromString]: a line with a ':' or '=' stands for the entry made of
    the trimmed text before the first of them and the trimmed text after
    it; a line with neither is skipped; looking a key up gives the value
    of the last line of the input whose key is the same up to case, so an
    entry is found under any casing of its key; and the example text has
    exactly the two entries foo and baz. *)
Theorem fromString_entries :
  (forall (a b : string) (c : ascii) (m : t),
      hasNoSeparator a = true -> isKeyValueSeparator c = true ->
      addLine m (a ++ String c b) = set m (JsString.trim a) (JsString.trim b)) /\
  (forall (line : string) (m : t),
      hasNoSeparator line = true -> addLine m line = m) /\
  (forall (input key : string),
      get (fromString input) key
      = lookupLast key (omap entryOf (splitLines input))) /\
  (forall (input k1 k2 : string),
      JsString.toLowerCase k1 = JsString.toLowerCase k2 ->
      get (fromString input) k1 = get (fromString input) k2) /\
  (splitLines exampleInput = ["Foo: bar"; "BAZ=qux"; "malformed-line"] /\
   size (map (fromString exampleInput)) = 2%nat /\
   get (fromString exampleInput) "foo" = Some "bar" /\
   get (fromString exampleInput) "FOO" = Some "bar" /\
   get (fromString exampleInput) "baz" = Some "qux" /\
   get (fromString exampleInput) "Baz" = Some "qux" /\
   get (fromString exampleInput) "malformed-line" = None).
Proof.
  split; [| split; [| split; [| split]]].
  - intros a b c m Ha Hc. unfold addLine.
    rewrite (matchSeparator_first a b c Ha Hc).
    now rewrite slice_prefix, sliceFrom_suffix.
  - intros line m Hl. unfold addLine.
    now rewrite (matchSeparator_none line Hl).
  - intros input key. unfold fromString.
    rewrite get_fold_addLine.
    destruct (lookupLast key (omap entryOf (splitLines input))); reflexivity.
  - intros input k1 k2 E. unfold get. now rewrite E.
  - vm_compute. repeat split; reflexivity.
Qed.

End MapProperties.

Lemma fromString_example_any_casing :
  CaseInsensitiveStringMap.get (CaseInsensitiveStringMap.fromString exampleInput) "fOo"
  = CaseInsensitiveStringMap.get (CaseInsensitiveStringMap.fromString exampleInput) "FOO".
Proof.
  apply (proj1 (proj2 (proj2 (proj2 fromString_entries))) exampleInput "fOo" "FOO").
  vm_compute. reflexivity.
Defined.

(* ===================================================================== *)
(** * Properties of AndroidDevice *)
(* ===================================================================== *)

Section DeviceTheorems.

Import AndroidDevice.

Context {Host : Type} `{AndroidUtils Host} `{CryptoUtils}.

Lemma boot_unguarded (waitForBoot systemWritable : bool) (w : World Host) :
  systemWritable && isPlayStore (device w) = false ->
  boot waitForBoot systemWritable w =
    let c := StartEmulator (id (device w)) systemWritable waitForBoot in
    match startEmulator (id (device w)) systemWritable waitForBoot (host w) with
    | (Ok p, h) =>
        (Ok tt, BuildWorld (setPort (device w) p) (journal w ++ [c]) h)
    | (Throw e, h) => (Throw e, afterCall w c h)
    end.
Proof.
  intros G. unfold boot, bind, this, call, assignPort, afterCall. simpl.
  rewrite G.
  destruct (startEmulator _ _ _ _) as [[p | e] h]; reflexivity.
Qed.

(** C8. On a Play Store device, [boot] with a writable system throws the
    policy error and leaves the world as it was: nothing is asked of the
    host (no emulator is started) and the port keeps its value, so a port
    at -1 stays at -1. With [systemWritable] false the same device does
    not take that path: the emulator is started, and [boot] ends as that
    call ends. *)
Theorem boot_play_store_writable_system (waitForBoot : bool) (w : World Host) :
  isPlayStore (device w) = true ->
  boot waitForBoot true w = (Throw policyError, w) /\
  (port (device w) = -1 ->
   port (device (snd (boot waitForBoot true w))) = -1) /\
  journal (snd (boot waitForBoot false w))
    = (journal w ++ [StartEmulator (id (device w)) false waitForBoot])%list /\
  (forall p h,
      startEmulator (id (device w)) false waitForBoot (host w) = (Ok p, h) ->
      fst (boot waitForBoot false w) = Ok tt /\
      port (device (snd (boot waitForBoot false w))) = p) /\
  (forall e h,
      startEmulator (id (device w)) false waitForBoot (host w) = (Throw e, h) ->
      fst (boot waitForBoot false w) = Throw e /\
      port (device (snd (boot waitForBoot false w))) = port (device w)).
Proof.
  intros PS.
  assert (B : boot waitForBoot true w = (Throw policyError, w)).
  { unfold boot, bind, this, throw. simpl. rewrite PS. reflexivity. }
  rewrite B, (boot_unguarded waitForBoot false w eq_refl). cbv zeta.
  split; [reflexivity | split; [intros P; exact P | split; [| split]]].
  - destruct (startEmulator _ _ _ _) as [[p | e] h]; reflexivity.
  - intros p h E. rewrite E. split; reflexivity.
  - intros e h E. rewrite E. split; reflexivity.
Qed.

(** C9. On a device whose port is -1, [reboot] is [boot] with the same
    [waitForBoot] (and the default [systemWritable]): the same result and
    the same world. On a device with another port, [reboot] asks the host
    to reboot the emulator on that port, and ends as that call ends,
    leaving the device as it was. *)
Theorem reboot_not_booted_is_boot (waitForBoot : bool) (w : World Host) :
  (port (device w) = -1 ->
   reboot waitForBoot w = boot waitForBoot false w) /\
  (port (device w) <> -1 ->
   let c := RebootEmulator (port (device w)) waitForBoot in
   reboot waitForBoot w
   = (fst (rebootEmulator (port (device w)) waitForBoot (host w)),
      afterCall w c (snd (rebootEmulator (port (device w)) waitForBoot (host w))))).
Proof.
  split; intros P.
  - unfold reboot, bind, this. simpl. rewrite P. reflexivity.
  - unfold reboot, bind, this, call, afterCall. cbv zeta. simpl.
    destruct (Z.eqb_spec (port (device w)) (-1)) as [E | _]; [contradiction |].
    destruct (rebootEmulator _ _ _) as [r h]; reflexivity.
Qed.

Lemma adb_run (command : string) (w : World Host) :
  adb command w =
    (fst (executeAdbCommand command (port (device w)) (host w)),
     afterCall w (ExecuteAdbCommand command (port (device w)))
               (snd (executeAdbCommand command (port (device w)) (host w)))).
Proof.
  unfold adb, bind, this, call, afterCall. simpl.
  destruct (executeAdbCommand _ _ _) as [r h]; reflexivity.
Qed.

(** C10. [hasApp] never throws. It sends one adb command, the text
    shell pm list packages | grep followed by, between double quotation
    marks, the part of the target before its first '/', and answers true
    exactly when that command succeeds with an output that has a code unit
    other than white space; when the command throws, the answer is
    false. *)
Theorem hasApp_never_throws (target : string) (w : World Host) :
  let pkgId := JsString.splitFirst "/" target in
  let command :=
    "shell pm list packages | grep " ++ quotationMark ++ pkgId ++ quotationMark in
  let reply := executeAdbCommand command (port (device w)) (host w) in
  (exists b, fst (hasApp target w) = Ok b) /\
  snd (hasApp target w)
    = afterCall w (ExecuteAdbCommand command (port (device w))) (snd reply) /\
  (fst (hasApp target w) = Ok true <->
   exists output,
     fst reply = Ok output /\
     forallb JsString.isWhiteSpace (list_ascii_of_string output) = false) /\
  (forall e, fst reply = Throw e -> fst (hasApp target w) = Ok false) /\
  (forall pkg rest : string,
      hasNo "/" pkg = true -> target = pkg ++ String "/" rest ->
      pkgId = pkg /\
      command
      = "shell pm list packages | grep " ++ quotationMark ++ pkg ++ quotationMark) /\
  (hasNo "/" target = true -> pkgId = target).
Proof.
  intros pkgId command reply.
  assert (R : hasApp target w =
              (Ok (negb (String.eqb
                     (JsString.trim match fst reply with
                                    | Ok output => output
                                    | Throw _ => EmptyString
                                    end) EmptyString)),
               afterCall w (ExecuteAdbCommand command (port (device w))) (snd reply))).
  { unfold hasApp, bind, tryCatch, ret. fold pkgId.
    change (listPackagesCommand pkgId) with command.
    rewrite adb_run. fold reply.
    destruct (fst reply); reflexivity. }
  rewrite R. cbn [fst snd].
  split; [eauto | split; [reflexivity | split; [| split; [| split]]]].
  - rewrite trim_empty. split.
    + intros E. destruct (fst reply) as [output | e].
      * exists output. split; [reflexivity |].
        injection E as E. now apply negb_true_iff in E.
      * discriminate.
    + intros (output & -> & E). now rewrite E.
  - intros e ->. reflexivity.
  - intros pkg rest Hp ->.
    assert (P : pkgId = pkg) by now apply splitFirst_before.
    split; [exact P |]. unfold command. now rewrite P.
  - intros Ht. now apply splitFirst_whole.
Qed.

(** C6. [isCertInstalled] computes the subject hash before it enters its
    try block: when the helper throws, on a certificate it cannot parse,
    [isCertInstalled] throws that exception; no command is sent to the
    device and nothing is logged. *)
Theorem isCertInstalled_throws_on_hash_failure
        (certData : SSLCertificateData) (w : World Host) (e : Exn) :
  getSubjectHashOld certData = Throw e ->
  isCertInstalled certData w = (Throw e, w).
Proof.
  intros E. unfold isCertInstalled, bind, pure. now rewrite E.
Qed.

(** For a certificate whose subject hash the helper computes,
    [isCertInstalled] does not throw. It answers true exactly when the adb
    command root succeeds and the command
    shell ls /data/misc/user/0/cacerts-added, its last two words between
    double quotation marks, succeeds with an output in which the file name,
    the subject hash followed by ".0", occurs; when either command throws,
    the answer is false. The device is left as it was. *)
Theorem isCertInstalled_best_effort
        (certData : SSLCertificateData) (subjectHash : string) (w : World Host) :
  getSubjectHashOld certData = Ok subjectHash ->
  let fileName := subjectHash ++ ".0" in
  let list :=
    "shell " ++ quotationMark ++ "ls /data/misc/user/0/cacerts-added"
      ++ quotationMark in
  let p := port (device w) in
  (exists b, fst (isCertInstalled certData w) = Ok b) /\
  (fst (isCertInstalled certData w) = Ok true <->
   exists r h1 listing h2 before after,
     executeAdbCommand "root" p (host w) = (Ok r, h1) /\
     executeAdbCommand list p h1 = (Ok listing, h2) /\
     listing = before ++ fileName ++ after) /\
  (forall e h1,
      executeAdbCommand "root" p (host w) = (Throw e, h1) ->
      fst (isCertInstalled certData w) = Ok false) /\
  (forall r h1 e h2,
      executeAdbCommand "root" p (host w) = (Ok r, h1) ->
      executeAdbCommand list p h1 = (Throw e, h2) ->
      fst (isCertInstalled certData w) = Ok false) /\
  device (snd (isCertInstalled certData w)) = device w.
Proof.
  intros Hash fileName list p.
  unfold isCertInstalled, bind at 1, pure. rewrite Hash.
  unfold tryCatch, bind, ret, loggerWarn.
  change listCertsCommand with list.
  rewrite adb_run. cbn [fst snd]. fold fileName. fold p.
  destruct (executeAdbCommand "root" p (host w)) as [[r | e] h1] eqn:E1;
    cbn [fst snd].
  - rewrite adb_run. cbn [fst snd afterCall device host]. fold p.
    destruct (executeAdbCommand list p h1) as [[listing | e] h2] eqn:E2;
      cbn [fst snd afterCall device].
    + split; [eauto | split; [| split; [| split]]];
        try discriminate; try reflexivity.
      * split.
        -- intros I. injection I as I. apply includes_spec in I as (a & b & I).
           exists r, h1, listing, h2, a, b. auto.
        -- intros (r' & h1' & l' & h2' & a & b & Er & El & I).
           injection Er as <- <-. rewrite E2 in El. injection El as <- <-.
           f_equal. apply includes_spec. eauto.
      * intros r' h1' e h2' Er El. injection Er as <- <-.
        rewrite E2 in El. discriminate.
    + split; [| split; [| split; [| split]]].
      * destruct (hasLogger (device w)); cbn; eauto.
      * split; [destruct (hasLogger (device w)); discriminate |].
        intros (r' & h1' & l' & h2' & a & b & Er & El & I).
        injection Er as <- <-. rewrite E2 in El. discriminate.
      * discriminate.
      * intros. destruct (hasLogger (device w)); reflexivity.
      * destruct (hasLogger (device w)); reflexivity.
  - cbn [afterCall device].
    split; [| split; [| split; [| split]]].
    + destruct (hasLogger (device w)); cbn; eauto.
    + split; [destruct (hasLogger (device w)); discriminate |].
      intros (r' & h1' & l' & h2' & a & b & Er & El & I). discriminate.
    + intros. destruct (hasLogger (device w)); reflexivity.
    + discriminate.
    + destruct (hasLogger (device w)); reflexivity.
Qed.

Lemma runSteps_first_failure (pre post : list Call) (c : Call)
      (h h0 h1 : Host) (e : Exn) :
  runSteps pre h = (Ok tt, pre, h0) ->
  answer c h0 = (Throw e, h1) ->
  runSteps (pre ++ c :: post) h = (Throw e, pre ++ [c], h1)%list.
Proof.
  revert h. induction pre as [| a pre IH]; intros h Hpre Hc.
  - injection Hpre as <-. simpl. now rewrite Hc.
  - simpl in Hpre |- *. destruct (answer a h) as [[u | e'] h'] eqn:Ea.
    + destruct (runSteps pre h') as [[r started] h''] eqn:Er.
      injection Hpre as -> -> ->. now rewrite (IH h' Er Hc).
    + discriminate.
Qed.

Lemma installCert_runSteps (certData : SSLCertificateData)
      (subjectHash pemContent : string) (w : World Host) :
  getSubjectHashOld certData = Ok subjectHash ->
  pemOf certData = Ok pemContent ->
  let steps := installSteps subjectHash pemContent (device w) in
  installCert certData w
  = (fst (fst (runSteps steps (host w))),
     BuildWorld (device w)
       (journal w ++ snd (fst (runSteps steps (host w))))
       (snd (runSteps steps (host w)))).
Proof.
  intros Hash Pem steps. unfold steps.
  assert (P : match pemCertificate certData with
              | Some pem => ret pem
              | None => pure (derToPem (derCertificate certData))
              end w = (Ok pemContent, w)).
  { unfold pemOf in Pem. destruct (pemCertificate certData).
    - now injection Pem as ->.
    - unfold pure. now rewrite Pem. }
  unfold installCert, bind at 1, pure at 1. rewrite Hash.
  unfold bind at 1. rewrite P.
  unfold installSteps, pushCommand, chmodCommand, adb,
    bind, this, call, ret. cbn [runSteps answer device journal host].
  destruct (writeFileSync _ _ _) as [[u1 | e1] h1]; [| reflexivity].
  cbn [device journal host].
  destruct (mountAsRootWritableSystem _ _) as [[u2 | e2] h2];
    [| cbn; now rewrite <- app_assoc].
  cbn [device journal host].
  destruct (executeAdbCommand _ _ h2) as [[u3 | e3] h3];
    [| cbn; now rewrite <- !app_assoc].
  cbn [device journal host].
  destruct (executeAdbCommand _ _ h3) as [[u4 | e4] h4];
    cbn; now rewrite <- !app_assoc.
Qed.

(** C7. With the subject hash and the PEM text of the certificate (the
    cached text when there is one, the DER bytes converted otherwise),
    [installCert] does the four steps of [installSteps] in their order:
    write the PEM text to the file named by the subject hash and ".0" in
    the temporary directory of the host; mount the system of the device as
    root and writable; push the file into the trust directory under the
    same name; set its mode to 644. When all four succeed it returns, with
    the four calls in the journal. When the steps before one succeed and
    that one throws, [installCert] throws the same exception, and no later
    step is started. The device is left as it was. When the helper that
    computes the hash or the one that converts the DER bytes throws,
    [installCert] throws the same exception and no step is started. *)
Theorem installCert_steps (certData : SSLCertificateData) (w : World Host) :
  (forall subjectHash pemContent : string,
      getSubjectHashOld certData = Ok subjectHash ->
      pemOf certData = Ok pemContent ->
      let fileName := subjectHash ++ ".0" in
      let steps := installSteps subjectHash pemContent (device w) in
      (forall h',
          runSteps steps (host w) = (Ok tt, steps, h') ->
          installCert certData w
          = (Ok tt, BuildWorld (device w) (journal w ++ steps) h')) /\
      (forall pre c post h0 e h1,
          steps = (pre ++ c :: post)%list ->
          runSteps pre (host w) = (Ok tt, pre, h0) ->
          answer c h0 = (Throw e, h1) ->
          installCert certData w
          = (Throw e, BuildWorld (device w) (journal w ++ pre ++ [c]) h1)) /\
      steps = [ WriteFileSync (pathJoin tmpdir fileName) pemContent;
                MountAsRootWritableSystem (id (device w));
                ExecuteAdbCommand
                  (pushCommand (pathJoin tmpdir fileName) fileName)
                  (port (device w));
                ExecuteAdbCommand (chmodCommand fileName) (port (device w)) ] /\
      (forall pem, pemCertificate certData = Some pem -> pemContent = pem) /\
      (pemCertificate certData = None ->
       derToPem (derCertificate certData) = Ok pemContent)) /\
  (forall e,
      getSubjectHashOld certData = Throw e ->
      installCert certData w = (Throw e, w)) /\
  (forall subjectHash e,
      getSubjectHashOld certData = Ok subjectHash ->
      pemCertificate certData = None ->
      derToPem (derCertificate certData) = Throw e ->
      installCert certData w = (Throw e, w)).
Proof.
  split; [| split].
  - intros subjectHash pemContent Hash Pem fileName steps.
    pose proof (installCert_runSteps certData subjectHash pemContent w Hash Pem)
      as Run. cbv zeta in Run. fold steps in Run.
    split; [| split; [| split; [| split]]].
    + intros h' R. rewrite Run. now rewrite R.
    + intros pre c post h0 e h1 S R A. rewrite Run.
      now rewrite S, (runSteps_first_failure pre post c _ h0 h1 e R A).
    + reflexivity.
    + intros pem E. unfold pemOf in Pem. rewrite E in Pem. congruence.
    + intros E. unfold pemOf in Pem. now rewrite E in Pem.
  - intros e Hash. unfold installCert, bind, pure. now rewrite Hash.
  - intros subjectHash e Hash NoPem Der.
    unfold installCert, bind at 1, pure at 1. rewrite Hash.
    unfold bind at 1. rewrite NoPem. unfold pure. now rewrite Der.
Qed.

End DeviceTheorems.

(* --------------------------------------------------------------------- *)
(** ** The methods run on the scripted host *)
(* --------------------------------------------------------------------- *)

(** A Play Store device refuses a writable system, and nothing is started. *)
Lemma boot_pixelPlayStore_writable :
  AndroidDevice.boot true true (worldOf pixelPlayStore [])
  = (Throw policyError, worldOf pixelPlayStore []).
Proof.
  apply (boot_play_store_writable_system true (worldOf pixelPlayStore [])).
  reflexivity.
Defined.

(** A device that was never booted: reboot is boot. *)
Lemma reboot_pixel_not_booted :
  AndroidDevice.reboot true (worldOf pixel [])
  = AndroidDevice.boot true false (worldOf pixel []).
Proof.
  apply (proj1 (reboot_not_booted_is_boot true (worldOf pixel []))).
  reflexivity.
Defined.

Example reboot_pixel_booted :
  AndroidDevice.reboot true (worldOf bootedPixel [])
  = (Ok tt, AndroidDevice.BuildWorld bootedPixel
              [AndroidDevice.RebootEmulator 5554 true] []).
Proof. reflexivity. Qed.

(** The query for com.x/.Activity is the package list filtered by com.x;
    the host answers it with that package, so the app is there. *)
Lemma hasApp_package_of_activity :
  fst (AndroidDevice.hasApp "com.x/.Activity" (answeringWorld bootedPixel))
  = Ok true /\
  snd (AndroidDevice.hasApp "com.x/.Activity" (answeringWorld bootedPixel))
  = AndroidDevice.BuildWorld bootedPixel
      [AndroidDevice.ExecuteAdbCommand
         ("shell pm list packages | grep " ++ quotationMark ++ "com.x"
            ++ quotationMark) 5554]
      answering.
Proof.
  destruct (hasApp_never_throws "com.x/.Activity" (answeringWorld bootedPixel))
    as (_ & S & T & _).
  split.
  - apply T. eexists. split; reflexivity.
  - rewrite S. reflexivity.
Defined.

Example hasApp_installed :
  AndroidDevice.hasApp "com.x/.Activity"
    (worldOf bootedPixel [Ok "package:com.x"])
  = (Ok true,
     AndroidDevice.BuildWorld bootedPixel
       [AndroidDevice.ExecuteAdbCommand
          ("shell pm list packages | grep " ++ quotationMark ++ "com.x"
             ++ quotationMark) 5554] []).
Proof. vm_compute. reflexivity. Qed.

(** Another package is not in the list the host gives. *)
Example hasApp_not_installed :
  fst (AndroidDevice.hasApp "com.y/.Activity" (answeringWorld bootedPixel))
  = Ok false.
Proof. vm_compute. reflexivity. Qed.

Example hasApp_adb_fails :
  fst (AndroidDevice.hasApp "com.x" (worldOf bootedPixel [])) = Ok false.
Proof. vm_compute. reflexivity. Qed.

(** A certificate without bytes: the helper cannot parse it, and
    [isCertInstalled] throws instead of answering false; the host, which
    would have answered both commands, is not asked. *)
Lemma isCertInstalled_emptyCert_throws :
  AndroidDevice.isCertInstalled emptyCert (answeringWorld bootedPixel)
  = (Throw unparsable, answeringWorld bootedPixel).
Proof.
  apply (isCertInstalled_throws_on_hash_failure emptyCert
           (answeringWorld bootedPixel) unparsable).
  reflexivity.
Defined.

(** The host lists the file of the certificate in the trust directory. *)
Lemma isCertInstalled_listed_by_host :
  fst (AndroidDevice.isCertInstalled someCert (answeringWorld bootedPixel))
  = Ok true.
Proof.
  apply (proj1 (proj2
           (@isCertInstalled_best_effort AnsweringHost answeringUtils
              scriptedCrypto someCert "9a5ba575"
              (answeringWorld bootedPixel) ltac:(reflexivity)))).
  exists "restarting adbd as root", answering,
    ("9a5ba575.0" ++ String "010" EmptyString), answering,
    EmptyString, (String "010" EmptyString).
  repeat split; reflexivity.
Defined.

(** When adb cannot become root, the certificate counts as not installed. *)
Example isCertInstalled_root_fails :
  fst (AndroidDevice.isCertInstalled someCert
         (worldOf bootedPixel [Throw (HostFailure "adbd cannot run as root")]))
  = Ok false.
Proof. vm_compute. reflexivity. Qed.

Example isCertInstalled_listed :
  fst (AndroidDevice.isCertInstalled someCert
         (worldOf bootedPixel [Ok "restarting adbd as root"; Ok "9a5ba575.0"]))
  = Ok true.
Proof. vm_compute. reflexivity. Qed.

Example installCert_journal :
  AndroidDevice.installCert someCert
    (worldOf bootedPixel [Ok "1 file pushed"; Ok ""])
  = (Ok tt,
     AndroidDevice.BuildWorld bootedPixel
       [ AndroidDevice.WriteFileSync "/tmp/9a5ba575.0" "-----BEGIN CERTIFICATE-----";
         AndroidDevice.MountAsRootWritableSystem "Pixel_5_API_33";
         AndroidDevice.ExecuteAdbCommand
           "push /tmp/9a5ba575.0 /data/misc/user/0/cacerts-added/9a5ba575.0" 5554;
         AndroidDevice.ExecuteAdbCommand
           (AndroidDevice.chmodCommand "9a5ba575.0") 5554 ]
       []).
Proof. vm_compute. reflexivity. Qed.

(** The push fails: [installCert] throws what adb threw, after the file was
    written and the system mounted, and chmod is not run. *)
Lemma installCert_push_rejected :
  AndroidDevice.installCert someCert
    (worldOf bootedPixel [Throw (HostFailure "adb: error: failed to copy")])
  = (Throw (HostFailure "adb: error: failed to copy"),
     AndroidDevice.BuildWorld bootedPixel
       [ AndroidDevice.WriteFileSync "/tmp/9a5ba575.0" "-----BEGIN CERTIFICATE-----";
         AndroidDevice.MountAsRootWritableSystem "Pixel_5_API_33";
         AndroidDevice.ExecuteAdbCommand
           "push /tmp/9a5ba575.0 /data/misc/user/0/cacerts-added/9a5ba575.0" 5554 ]
       []).
Proof.
  apply (proj1 (proj2 (proj1 (@installCert_steps ScriptedHost scriptedUtils
           scriptedCrypto someCert
           (worldOf bootedPixel [Throw (HostFailure "adb: error: failed to copy")]))
           "9a5ba575" "-----BEGIN CERTIFICATE-----"
           ltac:(reflexivity) ltac:(reflexivity)))
         [ AndroidDevice.WriteFileSync "/tmp/9a5ba575.0" "-----BEGIN CERTIFICATE-----";
           AndroidDevice.MountAsRootWritableSystem "Pixel_5_API_33" ]
         (AndroidDevice.ExecuteAdbCommand
            "push /tmp/9a5ba575.0 /data/misc/user/0/cacerts-added/9a5ba575.0" 5554)
         [ AndroidDevice.ExecuteAdbCommand
             (AndroidDevice.chmodCommand "9a5ba575.0") 5554 ]
         [Throw (HostFailure "adb: error: failed to copy")]
         (HostFailure "adb: error: failed to copy") []);
    reflexivity.
Defined.

(* ===================================================================== *)
(** * Further properties of Version *)
(* ===================================================================== *)

Section VersionOrder.

Import Version.

Variable localeCompareAccent : string -> string -> Z.

Local Abbreviation compare := (Version.compare localeCompareAccent).
Local Abbreviation same := (Version.same localeCompareAccent).
Local Abbreviation sameOrNewer := (Version.sameOrNewer localeCompareAccent).

Lemma compare_weights (v1 v2 : Operand) (a b : Version.t) :
  resolve v1 = Some a -> resolve v2 = Some b ->
  compare v1 v2 = Ok (Z.sgn (doubleWeight a - doubleWeight b)).
Proof.
  exact (compare_doubleWeights localeCompareAccent v1 v2 a b).
Qed.

(** [compare] is antisymmetric as soon as one operand is a numeric version:
    it does not throw, and exchanging the operands gives the opposite
    result. *)
Theorem compare_antisymmetric (v1 v2 : Operand) :
  resolve v1 <> None \/ resolve v2 <> None ->
  exists r, compare v1 v2 = Ok r /\ compare v2 v1 = Ok (- r).
Proof.
  intros H.
  destruct (resolve v1) as [a |] eqn:E1; destruct (resolve v2) as [b |] eqn:E2.
  - exists (Z.sgn (doubleWeight a - doubleWeight b)).
    rewrite (compare_weights _ _ _ _ E1 E2), (compare_weights _ _ _ _ E2 E1).
    split; [reflexivity |]. f_equal. rewrite <- Z.sgn_opp. f_equal. lia.
  - exists (-1). unfold Version.compare. now rewrite E1, E2.
  - exists 1. unfold Version.compare. now rewrite E1, E2.
  - destruct H as [H | H]; contradiction.
Qed.

(** [compare] of an operand with itself is 0, and [same] is true: always
    for a numeric version, and for a codename because the collation finds a
    string equal to itself. *)
Theorem compare_reflexive (v : Operand) :
  (forall s, localeCompareAccent s s = 0) ->
  compare v v = Ok 0 /\ same v v = Ok true /\ sameOrNewer v v = Ok true.
Proof.
  intros R.
  assert (C : compare v v = Ok 0).
  { destruct (resolve v) as [a |] eqn:E.
    - rewrite (compare_weights _ _ _ _ E E), Z.sub_diag. reflexivity.
    - unfold Version.compare. rewrite E, R. reflexivity. }
  unfold Version.same, Version.sameOrNewer. rewrite C. repeat split.
Qed.



End VersionOrder.

Lemma compare_antisymmetric_13_Tiramisu :
  exists r,
    Version.compare rootCompareAccent
      (Version.OfString "13") (Version.OfString "Tiramisu") = Ok r /\
    Version.compare rootCompareAccent
      (Version.OfString "Tiramisu") (Version.OfString "13") = Ok (- r).
Proof.
  apply (compare_antisymmetric rootCompareAccent
           (Version.OfString "13") (Version.OfString "Tiramisu")).
  left. vm_compute. discriminate.
Defined.

Lemma compare_reflexive_Tiramisu :
  Version.compare rootCompareAccent
    (Version.OfString "Tiramisu") (Version.OfString "Tiramisu") = Ok 0 /\
  Version.same rootCompareAccent
    (Version.OfString "Tiramisu") (Version.OfString "Tiramisu") = Ok true /\
  Version.sameOrNewer rootCompareAccent
    (Version.OfString "Tiramisu") (Version.OfString "Tiramisu") = Ok true.
Proof.
  apply (compare_reflexive rootCompareAccent (Version.OfString "Tiramisu")).
  exact rootCompareAccent_refl.
Defined.


Section VersionParsing.

Import RegExp Version.

Lemma parseDigits_nonneg (s : list ascii) (acc : Z) :
  0 <= acc -> 0 <= parseDigits acc s.
Proof.
  revert acc. induction s as [| c s IH]; intros acc Ha; simpl; [exact Ha |].
  destruct (isDigit c) eqn:D; [| exact Ha].
  apply IH. unfold isDigit in D. apply andb_true_iff in D as [L _].
  apply N.leb_le in L. lia.
Qed.

(** The numbers of a parsed version are never negative. *)
Theorem from_nonnegative (input : string) (v : Version.t) :
  from input = Some v -> 0 <= major v /\ 0 <= minor v /\ 0 <= patch v.
Proof.
  unfold from. destruct (exec versionRegex (JsString.trim input)) as [groups |];
    [| discriminate].
  intros E. injection E as <-. cbn [major minor patch]. unfold groupNumber, parseInt.
  repeat split;
    match goal with
    | |- context [capture ?g groups] =>
        destruct (capture g groups);
          [apply round_nonneg, parseDigits_nonneg |]; lia
    end.
Qed.

Lemma trimStart_space_app (w l : list ascii) :
  allSpace w = true -> JsString.trimStart (w ++ l) = JsString.trimStart l.
Proof.
  unfold allSpace. induction w as [| c w IH]; simpl; intros H; [reflexivity |].
  apply andb_true_iff in H as [Hc Hw]. rewrite Hc. now apply IH.
Qed.

Lemma trimStart_app_kept (l w : list ascii) :
  allSpace l = false ->
  JsString.trimStart (l ++ w) = (JsString.trimStart l ++ w)%list.
Proof.
  unfold allSpace. induction l as [| c l IH]; simpl; intros H; [discriminate |].
  destruct (JsString.isWhiteSpace c); simpl in H; [now apply IH | reflexivity].
Qed.

Lemma trimEnd_app_space (l w : list ascii) :
  allSpace w = true -> JsString.trimEnd (l ++ w) = JsString.trimEnd l.
Proof.
  intros H. unfold JsString.trimEnd. rewrite rev_app_distr.
  rewrite trimStart_space_app; [reflexivity |].
  unfold allSpace. now rewrite forallb_rev.
Qed.

Lemma trimL_surrounded (w1 l w2 : list ascii) :
  allSpace w1 = true -> allSpace w2 = true ->
  JsString.trimL (w1 ++ l ++ w2) = JsString.trimL l.
Proof.
  intros H1 H2. unfold JsString.trimL. rewrite (trimStart_space_app w1 _ H1).
  destruct (allSpace l) eqn:L.
  - rewrite (trimStart_space_app l w2 L).
    apply trimStart_nil in H2. apply trimStart_nil in L. now rewrite H2, L.
  - rewrite (trimStart_app_kept l w2 L). now apply trimEnd_app_space.
Qed.

(** White space around a version string does not change how it parses. *)
Theorem from_ignores_surrounding_space (w1 input w2 : string) :
  allSpace (list_ascii_of_string w1) = true ->
  allSpace (list_ascii_of_string w2) = true ->
  from (w1 ++ input ++ w2) = from input.
Proof.
  intros H1 H2. unfold from, JsString.trim.
  now rewrite !list_ascii_of_string_app, (trimL_surrounded _ _ _ H1 H2).
Qed.

(** *** A match consumes only what the classes of the pattern accept *)

Lemma clear_within (ok : ascii -> bool) (ps : list nat) (cs : Captures) :
  capturesWithin ok cs -> capturesWithin ok (clearCaptures ps cs).
Proof.
  unfold capturesWithin, clearCaptures. rewrite !List.Forall_forall.
  intros H kv I. apply List.filter_In in I as [I _]. now apply H.
Qed.

Lemma capture_within (ok : ascii -> bool) (n : nat) (cs : Captures) (s : list ascii) :
  capturesWithin ok cs -> capture n cs = Some s -> forallb ok s = true.
Proof.
  unfold capturesWithin. induction cs as [| [k v] cs IH]; simpl; [discriminate |].
  intros H E. inversion H as [| ? ? Hv Hcs]; subst.
  destruct (Nat.eqb k n); [injection E as <-; exact Hv | now apply IH].
Qed.

Lemma repeatMatcher_within (ok : ascii -> bool) (m : Matcher) (ps : list nat)
      (fuel : nat) :
  matcherWithin ok m -> matcherWithin ok (repeatMatcher fuel m ps).
Proof.
  intros Hm. induction fuel as [| fuel IH]; intros x k z Hx E.
  - simpl in E. exists x, []. rewrite Nat.add_0_r. auto.
  - rewrite repeatMatcher_S in E.
    destruct (m (clear ps x) _) as [z' |] eqn:Em.
    + injection E as ->.
      apply Hm in Em as (y1 & pre1 & Ed & R1 & O1 & I1 & C1);
        [| now apply clear_within].
      cbn [rest endIndex clear] in R1, I1, Ed.
      destruct (Nat.eqb (endIndex y1) (endIndex x)); [discriminate |].
      apply IH in Ed as (y & pre2 & Ek & R2 & O2 & I2 & C2); [| exact C1].
      exists y, (pre1 ++ pre2)%list. repeat split; try assumption.
      * now rewrite R1, R2, app_assoc.
      * now rewrite forallb_app, O1, O2.
      * rewrite length_app. lia.
    + exists x, []. rewrite Nat.add_0_r. auto.
Qed.

Lemma compile_within (ok : ascii -> bool) (r : Pattern) :
  classesWithin ok r -> matcherWithin ok (compile r).
Proof.
  induction r as [| | p | r1 IH1 r2 IH2 | r1 IH1 r2 IH2 | r IH | r IH | n r IH | n];
    intros Hr x k z Hx E.
  - cbn [compile] in E. destruct (Nat.eqb (endIndex x) 0); [| discriminate].
    exists x, []. rewrite Nat.add_0_r. auto.
  - cbn [compile] in E. destruct (rest x) eqn:R; [| discriminate].
    exists x, []. rewrite Nat.add_0_r, R. auto.
  - cbn [compile] in E. destruct (rest x) as [| ch tl] eqn:R; [discriminate |].
    destruct (p ch) eqn:P; [| discriminate].
    eexists _, [ch]. split; [exact E |]. cbn [rest endIndex captures length forallb].
    rewrite (Hr ch P). auto.
  - destruct Hr as [Hr1 Hr2]. rewrite compile_Seq in E.
    apply (IH1 Hr1) in E as (y1 & pre1 & E & R1 & O1 & I1 & C1); [| exact Hx].
    apply (IH2 Hr2) in E as (y & pre2 & E & R2 & O2 & I2 & C2); [| exact C1].
    exists y, (pre1 ++ pre2)%list. repeat split; try assumption.
    + now rewrite R1, R2, app_assoc.
    + now rewrite forallb_app, O1, O2.
    + rewrite length_app. lia.
  - destruct Hr as [Hr1 Hr2]. rewrite compile_Disj in E.
    destruct (compile r1 x k) as [z' |] eqn:E1.
    + injection E as ->. now apply (IH1 Hr1) in E1.
    + now apply (IH2 Hr2) in E.
  - cbn [compile] in E.
    exact (repeatMatcher_within ok _ _ _ (IH Hr) x k z Hx E).
  - rewrite compile_Opt in E.
    destruct (compile r (clear (parens r) x) _) as [z' |] eqn:Em.
    + injection E as ->.
      apply (IH Hr) in Em as (y & pre & Ed & R & O & I & C);
        [| now apply clear_within].
      cbn [rest endIndex clear] in R, I, Ed.
      destruct (Nat.eqb (endIndex y) (endIndex x)); [discriminate |].
      exists y, pre. auto.
    + exists x, []. rewrite Nat.add_0_r. auto.
  - rewrite compile_Group in E.
    apply (IH Hr) in E as (y & pre & E & R & O & I & C); [| exact Hx].
    eexists _, pre. split; [exact E |].
    unfold setCapture. cbn [rest endIndex captures].
    repeat split; try assumption.
    apply Forall_cons. split; [| exact C]. cbn [snd].
    rewrite I, R. now rewrite firstn_consumed.
  - rewrite compile_Backref in E.
    destruct (capture n (captures x)) as [s |] eqn:Cn.
    + destruct (JsString.startsWith s (rest x)) eqn:S; [| discriminate].
      apply startsWith_spec in S as [b Hb].
      eexists _, s. split; [exact E |].
      unfold advance. cbn [rest endIndex captures].
      rewrite Hb, drop_app_length.
      repeat split; try assumption. exact (capture_within ok n _ s Hx Cn).
    + exists x, []. rewrite Nat.add_0_r. auto.
Qed.

Lemma digit19_digit (c : ascii) : isDigit19 c = true -> isDigit c = true.
Proof.
  unfold isDigit19, isDigit. intros H. apply andb_true_iff in H as [L U].
  rewrite U, andb_true_r. apply N.leb_le in L. apply N.leb_le. lia.
Qed.

Lemma versionRegex_classes : classesWithin isVersionChar versionRegex.
Proof.
  assert (Z : forall c, isZero c = true -> isVersionChar c = true).
  { intros c H. unfold isZero in H. apply Ascii.eqb_eq in H. now subst c. }
  assert (D : forall c, isDigit c = true -> isVersionChar c = true).
  { intros c H. unfold isVersionChar. now rewrite H. }
  assert (N : forall c, isDigit19 c = true -> isVersionChar c = true).
  { intros c H. apply D. now apply digit19_digit. }
  assert (S : forall c, isSeparator c = true -> isVersionChar c = true).
  { intros c H. unfold isVersionChar. rewrite H. apply orb_true_r. }
  unfold versionRegex, minorPart, patchPart, numeral. cbn [classesWithin].
  repeat split; assumption.
Qed.

Lemma versionRegex_anchored (i : nat) (s : list ascii) (k : Continuation) :
  i <> 0%nat -> compile versionRegex (mkState i s []) k = None.
Proof.
  intros H. unfold versionRegex. rewrite compile_Seq.
  change (compile AssertStart ?x ?c) with (if Nat.eqb (endIndex x) 0 then c x else None).
  cbn [endIndex]. now rewrite (proj2 (Nat.eqb_neq i 0) H).
Qed.

Lemma execFrom_anchored (s : list ascii) (i : nat) :
  i <> 0%nat -> execFrom (compile versionRegex) i s = None.
Proof.
  revert i. induction s as [| c s IH]; intros i H; cbn [execFrom];
    rewrite (versionRegex_anchored i _ Some H); [reflexivity |].
  apply IH. lia.
Qed.

Lemma execFrom_at_start (s : list ascii) (z : State) :
  execFrom (compile versionRegex) 0 s = Some z ->
  compile versionRegex (mkState 0 s []) Some = Some z.
Proof.
  destruct s as [| c s]; cbn [execFrom];
    destruct (compile versionRegex _ Some) as [z' |]; try discriminate; auto.
  now rewrite (execFrom_anchored s 1).
Qed.

Lemma versionRegex_whole (s : list ascii) (z : State) :
  compile versionRegex (mkState 0 s []) Some = Some z ->
  forallb isVersionChar s = true.
Proof.
  intros E. pose proof versionRegex_classes as C.
  unfold versionRegex in E, C. cbn [classesWithin] in C.
  destruct C as (C0 & C1 & C2 & C3 & _).
  rewrite compile_Seq in E.
  apply (compile_within isVersionChar AssertStart C0) in E as (y0 & p0 & E & R0 & O0 & _ & K0);
    [| apply Forall_nil_2].
  rewrite compile_Seq in E.
  apply (compile_within isVersionChar (Group gMajor numeral) C1) in E as (y1 & p1 & E & R1 & O1 & _ & K1);
    [| exact K0].
  rewrite compile_Seq in E.
  apply (compile_within isVersionChar minorPart C2) in E as (y2 & p2 & E & R2 & O2 & _ & K2);
    [| exact K1].
  rewrite compile_Seq in E.
  apply (compile_within isVersionChar patchPart C3) in E as (y3 & p3 & E & R3 & O3 & _ & K3);
    [| exact K2].
  cbn [compile] in E. destruct (rest y3) eqn:R; [| discriminate].
  cbn [rest] in R0.
  rewrite R0, R1, R2, R3, !forallb_app, O0, O1, O2, O3. reflexivity.
Qed.

(** A string parses as a version only if, once trimmed, it is not empty
    and holds nothing but digits, '-' and '.': a string with any other
    code unit inside, a codename for one, gives null. *)
Theorem from_only_version_chars (input : string) (v : Version.t) :
  from input = Some v ->
  JsString.trim input <> EmptyString /\
  forallb isVersionChar (list_ascii_of_string (JsString.trim input)) = true.
Proof.
  unfold from, exec. intros E.
  destruct (execFrom _ 0 _) as [z |] eqn:X; [| discriminate]. clear E.
  apply execFrom_at_start in X. split.
  - intros T. rewrite T in X. vm_compute in X. discriminate.
  - exact (versionRegex_whole _ _ X).
Qed.

End VersionParsing.

Lemma from_nonnegative_2_1_2 :
  0 <= Version.major (Version.Version 2 1 2) /\
  0 <= Version.minor (Version.Version 2 1 2) /\
  0 <= Version.patch (Version.Version 2 1 2).
Proof.
  apply (from_nonnegative "2-1-2" (Version.Version 2 1 2)).
  vm_compute. reflexivity.
Defined.

Lemma from_ignores_space_around_13 :
  Version.from (" " ++ "13.0" ++ String "010" "") = Version.from "13.0".
Proof.
  apply (from_ignores_surrounding_space " " "13.0" (String "010" ""));
    vm_compute; reflexivity.
Defined.

Lemma from_only_version_chars_2_1_2 :
  JsString.trim "2-1-2" <> EmptyString /\
  forallb isVersionChar (list_ascii_of_string (JsString.trim "2-1-2")) = true.
Proof.
  apply (from_only_version_chars "2-1-2" (Version.Version 2 1 2)).
  vm_compute. reflexivity.
Defined.

Lemma from_toString_helper (x y z : Z) :
  0 <= x <= 2 ^ 53 -> 0 <= y <= 2 ^ 53 -> 0 <= z <= 2 ^ 53 ->
  Version.from (Version.toString (Version.Version x y z))
  = Some (Version.Version x y z).
Proof.
  intros Hx Hy Hz.
  destruct (from_decimal x y z "." (proj1 Hx) (proj1 Hy) (proj1 Hz) eq_refl)
    as (_ & _ & F).
  rewrite (round_exact x Hx), (round_exact y Hy), (round_exact z Hz) in F.
  unfold Version.toString. cbn [Version.major Version.minor Version.patch].
  rewrite (numberToString_decimal x Hx), (numberToString_decimal y Hy),
    (numberToString_decimal z Hz).
  exact F.
Qed.

(** Printing a version of natural numbers up to 2^53 and parsing the
    text gives the version back; so two such versions with the same text
    are the same. *)
Theorem from_toString (v1 v2 : Version.t) :
  0 <= Version.major v1 <= 2 ^ 53 -> 0 <= Version.minor v1 <= 2 ^ 53 ->
  0 <= Version.patch v1 <= 2 ^ 53 ->
  0 <= Version.major v2 <= 2 ^ 53 -> 0 <= Version.minor v2 <= 2 ^ 53 ->
  0 <= Version.patch v2 <= 2 ^ 53 ->
  Version.from (Version.toString v1) = Some v1 /\
  (Version.toString v1 = Version.toString v2 -> v1 = v2).
Proof.
  intros A1 B1 C1 A2 B2 C2.
  assert (R1 : Version.from (Version.toString v1) = Some v1)
    by (destruct v1; now apply from_toString_helper).
  assert (R2 : Version.from (Version.toString v2) = Some v2)
    by (destruct v2; now apply from_toString_helper).
  split; [exact R1 |]. intros E. rewrite E in R1. congruence.
Qed.

Lemma from_toString_13_0_2 :
  Version.from (Version.toString (Version.Version 13 0 2))
  = Some (Version.Version 13 0 2) /\
  (Version.toString (Version.Version 13 0 2)
   = Version.toString (Version.Version 13 0 2) ->
   Version.Version 13 0 2 = Version.Version 13 0 2).
Proof.
  apply (from_toString (Version.Version 13 0 2) (Version.Version 13 0 2));
    simpl; lia.
Defined.

Lemma from_canonical_7_1_2 :
  Version.from "7" = Some (Version.Version 7 0 0) /\
  Version.from "7-1" = Some (Version.Version 7 1 0) /\
  Version.from "7-1-2" = Some (Version.Version 7 1 2) /\
  Version.toString (Version.Version 7 1 2) = "7.1.2".
Proof.
  apply (from_canonical 7 1 2 "-"); solve [lia | reflexivity].
Defined.

Lemma from_zero_then_numeral_01 :
  Version.from "01" = Some (Version.Version 0 0 1).
Proof.
  apply (from_zero_then_numeral 1). lia.
Defined.

(* ===================================================================== *)
(** * Further properties of CaseInsensitiveStringMap *)
(* ===================================================================== *)

Section MapLaws.

Import CaseInsensitiveStringMap.

Lemma lowerChar_idempotent (c : ascii) :
  JsString.lowerChar (JsString.lowerChar c) = JsString.lowerChar c.
Proof.
  destruct c as [[] [] [] [] [] [] [] []]; vm_compute; reflexivity.
Qed.

Lemma toLowerCase_idempotent (s : string) :
  JsString.toLowerCase (JsString.toLowerCase s) = JsString.toLowerCase s.
Proof.
  induction s as [| c s IH]; simpl; [reflexivity |].
  now rewrite lowerChar_idempotent, IH.
Qed.

Lemma lowerKeys_set (m : t) (key value : string) :
  lowerKeys m -> lowerKeys (set m key value).
Proof.
  intros H k v. unfold set. cbn [map]. rewrite lookup_insert.
  destruct (decide (JsString.toLowerCase key = k)) as [<- | N].
  - intros _. apply toLowerCase_idempotent.
  - apply H.
Qed.

Lemma lowerKeys_addLine (m : t) (line : string) :
  lowerKeys m -> lowerKeys (addLine m line).
Proof.
  intros H. unfold addLine. destruct (matchSeparator line); [| exact H].
  now apply lowerKeys_set.
Qed.

Lemma lowerKeys_fold (lines : list string) (m : t) :
  lowerKeys m -> lowerKeys (fold_left addLine lines m).
Proof.
  revert m. induction lines as [| l ls IH]; intros m H; simpl; [exact H |].
  apply IH. now apply lowerKeys_addLine.
Qed.

(** The map never holds a key with an upper-case letter: the empty map has
    none, [set] and [delete] keep it so, and so every map that [fromString]
    builds has lower-case keys only. *)
Theorem keys_are_lower_case :
  lowerKeys empty /\
  (forall m key value, lowerKeys m -> lowerKeys (set m key value)) /\
  (forall m key, lowerKeys m -> lowerKeys (fst (delete m key))) /\
  (forall input, lowerKeys (fromString input)).
Proof.
  assert (E : lowerKeys empty) by (intros k v; cbn; now rewrite lookup_empty).
  split; [exact E | split; [| split]].
  - exact lowerKeys_set.
  - intros m key H k v. unfold delete. cbn [fst map]. rewrite lookup_delete.
    destruct (decide _); [discriminate | apply H].
  - intros input. unfold fromString. now apply lowerKeys_fold.
Qed.

(** [set], [get], [has] and [delete] agree, whatever the casing of the key:
    a value set under a key is found under every casing of it and the other
    keys keep their values; a deleted key is gone under every casing;
    [delete] tells whether the key was there, and [has] is true exactly
    when [get] finds a value. *)
Theorem set_get_has_delete (m : t) (key key' value : string) :
  (JsString.toLowerCase key = JsString.toLowerCase key' ->
   get (set m key value) key' = Some value /\
   has (set m key value) key' = true /\
   get (fst (delete m key)) key' = None /\
   has (fst (delete m key)) key' = false) /\
  (JsString.toLowerCase key <> JsString.toLowerCase key' ->
   get (set m key value) key' = get m key' /\
   get (fst (delete m key)) key' = get m key') /\
  (snd (delete m key) = true <-> get m key <> None) /\
  (has m key = true <-> get m key <> None).
Proof.
  assert (Hh : forall m' k, has m' k = true <-> get m' k <> None).
  { intros m' k. unfold has, get. rewrite bool_decide_eq_true.
    destruct (map m' !! JsString.toLowerCase k); split; intros X;
      try congruence; try (now eexists); now destruct X. }
  split; [| split; [| split]].
  - intros E. unfold get, has, set, delete. cbn [fst map]. rewrite <- E.
    rewrite lookup_insert_eq, lookup_delete_eq.
    split; [reflexivity | split; [| split; [reflexivity |]]].
    + apply bool_decide_eq_true. now eexists.
    + apply bool_decide_eq_false. intros [x X]. discriminate.
  - intros N. unfold get, set, delete. cbn [fst map].
    now rewrite lookup_insert_ne, lookup_delete_ne.
  - unfold delete. cbn [snd]. apply Hh.
  - apply Hh.
Qed.

End MapLaws.

Lemma keys_are_lower_case_example :
  lowerKeys (CaseInsensitiveStringMap.set CaseInsensitiveStringMap.empty "Foo" "bar").
Proof.
  apply (proj1 (proj2 keys_are_lower_case) CaseInsensitiveStringMap.empty "Foo" "bar").
  apply (proj1 keys_are_lower_case).
Defined.

Lemma set_get_has_delete_example :
  CaseInsensitiveStringMap.get
    (CaseInsensitiveStringMap.set CaseInsensitiveStringMap.empty "Foo" "bar") "FOO"
  = Some "bar" /\
  CaseInsensitiveStringMap.has
    (CaseInsensitiveStringMap.set CaseInsensitiveStringMap.empty "Foo" "bar") "FOO"
  = true /\
  CaseInsensitiveStringMap.get
    (fst (CaseInsensitiveStringMap.delete CaseInsensitiveStringMap.empty "Foo")) "FOO"
  = None /\
  CaseInsensitiveStringMap.has
    (fst (CaseInsensitiveStringMap.delete CaseInsensitiveStringMap.empty "Foo")) "FOO"
  = false.
Proof.
  apply (proj1 (set_get_has_delete CaseInsensitiveStringMap.empty "Foo" "FOO" "bar")).
  vm_compute. reflexivity.
Defined.

Section LineSplitting.

Import CaseInsensitiveStringMap.

Lemma splitLines_single (l : string) :
  noLineBreak l = true -> splitLines l = [l].
Proof.
  unfold noLineBreak. induction l as [| c l IH]; [reflexivity |].
  cbn [list_ascii_of_string forallb]. intros H.
  apply andb_true_iff in H as [Hc Hl]. apply andb_true_iff in Hc as [L R].
  apply negb_true_iff in L, R. cbn [splitLines]. rewrite L, R.
  rewrite (IH Hl). now destruct l.
Qed.

Lemma splitLines_line (sep l r : string) :
  sep = LF \/ sep = CRLF ->
  noLineBreak l = true ->
  splitLines (l ++ sep ++ r) = l :: splitLines r.
Proof.
  intros Hs. unfold noLineBreak. induction l as [| c l IH].
  - intros _. destruct Hs as [-> | ->]; reflexivity.
  - cbn [list_ascii_of_string forallb]. intros H.
    apply andb_true_iff in H as [Hc Hl]. apply andb_true_iff in Hc as [L R].
    apply negb_true_iff in L, R.
    change (String c l ++ sep ++ r) with (String c (l ++ sep ++ r)).
    cbn [splitLines]. rewrite L, R, (IH Hl). cbn [andb consLine].
    now destruct (l ++ sep ++ r).
Qed.

(** Splitting undoes joining: lines that hold no line break, joined by LF
    or by CR LF, are split back into the same lines. *)
Theorem splitLines_joinLines (sep : string) (lines : list string) :
  sep = LF \/ sep = CRLF ->
  lines <> [] ->
  Forall (fun l => noLineBreak l = true) lines ->
  splitLines (joinLines sep lines) = lines.
Proof.
  intros Hs Hne Hl. induction lines as [| l ls IH]; [contradiction |].
  inversion Hl as [| ? ? H1 H2]; subst.
  destruct ls as [| l' ls].
  - now apply splitLines_single.
  - change (joinLines sep (l :: l' :: ls)) with (l ++ sep ++ joinLines sep (l' :: ls)).
    rewrite (splitLines_line sep l _ Hs H1). f_equal. now apply IH.
Qed.

Lemma splitLines_chars (P : ascii -> bool) (n : nat) (input : string) :
  (String.length input <= n)%nat ->
  forallb P (list_ascii_of_string input) = true ->
  Forall (fun l => forallb P (list_ascii_of_string l) = true) (splitLines input).
Proof.
  revert input. induction n as [| n IH]; intros input Hn Hp.
  - destruct input; [| simpl in Hn; lia]. repeat constructor.
  - destruct input as [| c tl]; [repeat constructor |].
    cbn [list_ascii_of_string forallb] in Hp. apply andb_true_iff in Hp as [Hc Ht].
    simpl in Hn.
    assert (T : Forall (fun l => forallb P (list_ascii_of_string l) = true)
                       (splitLines tl)) by (apply IH; [lia | exact Ht]).
    assert (C : Forall (fun l => forallb P (list_ascii_of_string l) = true)
                       (consLine c (splitLines tl))).
    { destruct (splitLines tl) as [| l ls]; cbn [consLine].
      - repeat constructor. cbn. now rewrite Hc.
      - inversion T; subst. constructor; [| assumption].
        cbn [list_ascii_of_string forallb]. now rewrite Hc. }
    cbn [splitLines]. destruct (isLF c); [now constructor |].
    destruct tl as [| c' tl']; [exact C |].
    destruct (isCR c && isLF c'); [| exact C].
    constructor; [reflexivity |]. apply IH; [simpl in Hn; lia |].
    cbn [list_ascii_of_string forallb] in Ht. now apply andb_true_iff in Ht as [_ Ht].
Qed.

(** A text with no ':' and no '=' gives the empty map: every line is
    skipped, and nothing is thrown; the empty text is one such. *)
Theorem fromString_without_separator (input : string) :
  hasNoSeparator input = true -> fromString input = empty.
Proof.
  intros H. unfold fromString.
  pose proof (splitLines_chars _ (String.length input) input (Nat.le_refl _) H) as L.
  induction L as [| l ls Hl _ IH]; [reflexivity |].
  cbn [fold_left]. unfold addLine at 2.
  now rewrite (matchSeparator_none l Hl).
Qed.

End LineSplitting.

Lemma splitLines_joinLines_example :
  CaseInsensitiveStringMap.splitLines (joinLines CRLF ["Foo: bar"; ""; "BAZ=qux"])
  = ["Foo: bar"; ""; "BAZ=qux"].
Proof.
  apply (splitLines_joinLines CRLF ["Foo: bar"; ""; "BAZ=qux"]).
  - right. reflexivity.
  - discriminate.
  - repeat constructor.
Defined.

Lemma fromString_without_separator_example :
  CaseInsensitiveStringMap.fromString (joinLines LF ["malformed-line"; "another"])
  = CaseInsensitiveStringMap.empty.
Proof.
  apply (fromString_without_separator (joinLines LF ["malformed-line"; "another"])).
  vm_compute. reflexivity.
Defined.

(* ===================================================================== *)
(** * Properties of MapUtils and SetUtils *)
(* ===================================================================== *)

Section MapFilter.

Context {K V : Type} `{EqDecision K}.

Lemma JsMap_set_fresh (m : list (K * V)) (key : K) (value : V) :
  ~ In key (List.map fst m) -> JsMap.set m key value = (m ++ [(key, value)])%list.
Proof.
  induction m as [| [k v] m IH]; cbn [JsMap.set List.map fst In app]; intros N;
    [reflexivity |].
  destruct (decide (k = key)) as [E | _]; [tauto |].
  rewrite IH; [reflexivity | tauto].
Qed.

Lemma MapUtils_fold (predicate : K -> V -> bool) (l acc : list (K * V)) :
  List.NoDup (List.map fst l) ->
  (forall k, In k (List.map fst l) -> ~ In k (List.map fst acc)) ->
  fold_left
    (fun aMap entry =>
       let '(key, value) := entry in
       if predicate key value then JsMap.set aMap key value else aMap)
    l acc
  = (acc ++ List.filter (fun kv => predicate (fst kv) (snd kv)) l)%list.
Proof.
  revert acc. induction l as [| [k v] l IH]; intros acc Hl Hd.
  - cbn. now rewrite app_nil_r.
  - cbn [List.map fst] in Hl, Hd. inversion Hl as [| ? ? Hk Hl']; subst.
    cbn [fold_left List.filter fst snd].
    destruct (predicate k v).
    + rewrite (JsMap_set_fresh acc k v) by (apply Hd; now left).
      rewrite IH; [now rewrite <- app_assoc | exact Hl' |].
      intros k' I. rewrite List.map_app, in_app_iff. cbn [List.map fst In].
      intros [A | [-> | []]]; [| contradiction].
      apply (Hd k'); [now right | exact A].
    + apply IH; [exact Hl' |]. intros k' I. apply Hd. now right.
Qed.

Lemma JsMap_get_absent (m : list (K * V)) (key : K) :
  ~ In key (List.map fst m) -> JsMap.get m key = None.
Proof.
  induction m as [| [k v] m IH]; cbn [JsMap.get List.map fst In]; intros N;
    [reflexivity |].
  destruct (decide (k = key)); [tauto |]. apply IH. tauto.
Qed.

Lemma filter_keys (f : K * V -> bool) (m : list (K * V)) (key : K) :
  In key (List.map fst (List.filter f m)) -> In key (List.map fst m).
Proof.
  rewrite !in_map_iff. intros ([k v] & E & I).
  apply List.filter_In in I as [I _]. eauto.
Qed.

(** [MapUtils.filter] keeps exactly the entries for which the predicate is
    true, in the order they have in the map, and a null map gives the empty
    map. So a key is found in the result, with its value, exactly when it is
    found in the map with a value that the predicate accepts. *)
Theorem MapUtils_filter_entries (map : list (K * V)) (predicate : K -> V -> bool) :
  List.NoDup (List.map fst map) ->
  MapUtils.filter (Some map) predicate
  = List.filter (fun kv => predicate (fst kv) (snd kv)) map /\
  List.NoDup (List.map fst (MapUtils.filter (Some map) predicate)) /\
  (forall key,
      JsMap.get (MapUtils.filter (Some map) predicate) key
      = match JsMap.get map key with
        | Some value => if predicate key value then Some value else None
        | None => None
        end) /\
  MapUtils.filter None predicate = [].
Proof.
  intros Hm.
  assert (E : MapUtils.filter (Some map) predicate
              = List.filter (fun kv => predicate (fst kv) (snd kv)) map).
  { unfold MapUtils.filter. rewrite MapUtils_fold; [reflexivity | exact Hm |].
    intros k _ []. }
  rewrite E. split; [reflexivity | split; [| split; [| reflexivity]]].
  - clear E. induction map as [| [k v] m IH]; [constructor |].
    cbn [List.map fst] in Hm. inversion Hm as [| ? ? Hk Hm']; subst.
    cbn [List.filter fst snd]. destruct (predicate k v); [| now apply IH].
    cbn [List.map fst]. constructor; [| now apply IH].
    intros I. apply Hk. now apply filter_keys in I.
  - intros key. clear E. induction map as [| [k v] m IH]; [reflexivity |].
    cbn [List.map fst] in Hm. inversion Hm as [| ? ? Hk Hm']; subst.
    cbn [List.filter fst snd JsMap.get].
    destruct (decide (k = key)) as [-> | N].
    + destruct (predicate key v); cbn [JsMap.get].
      * now destruct (decide (key = key)).
      * apply JsMap_get_absent. intros I. apply Hk. now apply filter_keys in I.
    + destruct (predicate k v); cbn [JsMap.get]; [| now apply IH].
      destruct (decide (k = key)); [contradiction | now apply IH].
Qed.

End MapFilter.

Section SetFilter.

Context {V : Type} `{EqDecision V}.

Lemma JsSet_add_fresh (s : list V) (value : V) :
  ~ In value s -> JsSet.add s value = (s ++ [value])%list.
Proof.
  induction s as [| v s IH]; cbn [JsSet.add In app]; intros N; [reflexivity |].
  destruct (decide (v = value)); [tauto |]. rewrite IH; [reflexivity | tauto].
Qed.

Lemma SetUtils_fold (predicate : V -> bool) (l acc : list V) :
  List.NoDup l ->
  (forall v, In v l -> ~ In v acc) ->
  fold_left
    (fun aSet entry =>
       let '(value, _) := entry in
       if predicate value then JsSet.add aSet value else aSet)
    (JsSet.entries l) acc
  = (acc ++ List.filter predicate l)%list.
Proof.
  revert acc. induction l as [| v l IH]; intros acc Hl Hd.
  - cbn. now rewrite app_nil_r.
  - inversion Hl as [| ? ? Hv Hl']; subst.
    cbn [JsSet.entries List.map fold_left List.filter].
    fold (JsSet.entries l).
    destruct (predicate v).
    + rewrite (JsSet_add_fresh acc v) by (apply Hd; now left).
      rewrite IH; [now rewrite <- app_assoc | exact Hl' |].
      intros v' I. rewrite in_app_iff. cbn [In].
      intros [A | [-> | []]]; [| contradiction].
      apply (Hd v'); [now right | exact A].
    + apply IH; [exact Hl' |]. intros v' I. apply Hd. now right.
Qed.

(** [SetUtils.filter] keeps exactly the values for which the predicate is
    true, in the order they have in the set and each once, and a null set
    gives the empty set. *)
Theorem SetUtils_filter_values (set : list V) (predicate : V -> bool) :
  List.NoDup set ->
  SetUtils.filter (Some set) predicate = List.filter predicate set /\
  List.NoDup (SetUtils.filter (Some set) predicate) /\
  (forall value,
      In value (SetUtils.filter (Some set) predicate)
      <-> In value set /\ predicate value = true) /\
  SetUtils.filter None predicate = [].
Proof.
  intros Hs.
  assert (E : SetUtils.filter (Some set) predicate = List.filter predicate set).
  { unfold SetUtils.filter. rewrite SetUtils_fold; [reflexivity | exact Hs |].
    intros v _ []. }
  rewrite E. split; [reflexivity | split; [| split; [| reflexivity]]].
  - now apply List.NoDup_filter.
  - intros value. apply List.filter_In.
Qed.

End SetFilter.

Lemma MapUtils_filter_example :
  MapUtils.filter (Some [("a", 1); ("b", 20); ("c", 3)]) (fun _ v => (v <? 10)%Z)
  = [("a", 1); ("c", 3)].
Proof.
  apply (MapUtils_filter_entries [("a", 1); ("b", 20); ("c", 3)] (fun _ v => (v <? 10)%Z)).
  repeat constructor; cbn; intuition discriminate.
Defined.

Lemma SetUtils_filter_example :
  SetUtils.filter (Some [1; 20; 3]) (fun v => (v <? 10)%Z) = [1; 3].
Proof.
  apply (SetUtils_filter_values [1; 20; 3] (fun v => (v <? 10)%Z)).
  repeat constructor; cbn; intuition discriminate.
Defined.

(* ===================================================================== *)
(** * Further properties of AndroidDevice *)
(* ===================================================================== *)

Section DeviceLifecycle.

Import AndroidDevice.

Context {Host : Type} `{AndroidUtils Host} `{CryptoUtils}.

Lemma call_run {A : Type} (c : Call) (f : Host -> Result A * Host) (w : World Host) :
  call c f w = (fst (f (host w)), afterCall w c (snd (f (host w)))).
Proof. unfold call, afterCall. now destruct (f (host w)). Qed.

Lemma reboot_live (waitForBoot : bool) (w : World Host) :
  port (device w) <> -1 ->
  reboot waitForBoot w
  = (fst (rebootEmulator (port (device w)) waitForBoot (host w)),
     afterCall w (RebootEmulator (port (device w)) waitForBoot)
               (snd (rebootEmulator (port (device w)) waitForBoot (host w)))).
Proof.
  intros P. unfold reboot, bind, this. cbn [device].
  destruct (Z.eqb_spec (port (device w)) (-1)) as [E | _]; [contradiction |].
  apply call_run.
Qed.

(** [boot] does not look at the port: whenever the Play Store guard does
    not fire, also on a device that is already booted, it asks the host to
    start the emulator. When that succeeds, the port becomes the one the
    host gave, and [emulatorPort] reads it; when it throws, [boot] throws
    the same and the port keeps its value. No other field changes. *)
Theorem boot_assigns_port (waitForBoot systemWritable : bool) (w : World Host) :
  systemWritable && isPlayStore (device w) = false ->
  let started := startEmulator (id (device w)) systemWritable waitForBoot (host w) in
  let w' := snd (boot waitForBoot systemWritable w) in
  journal w' = (journal w ++ [StartEmulator (id (device w)) systemWritable waitForBoot])%list /\
  host w' = snd started /\
  (forall p, fst started = Ok p ->
     fst (boot waitForBoot systemWritable w) = Ok tt /\
     device w' = setPort (device w) p /\
     emulatorPort w' = (Ok p, w')) /\
  (forall e, fst started = Throw e ->
     fst (boot waitForBoot systemWritable w) = Throw e /\
     device w' = device w).
Proof.
  intros G. cbv zeta. rewrite (boot_unguarded waitForBoot systemWritable w G). cbv zeta.
  destruct (startEmulator _ _ _ _) as [[p | e] h]; cbn [fst snd];
    (split; [reflexivity | split; [reflexivity | split]]).
  - intros p' E. injection E as <-. repeat split.
  - discriminate.
  - discriminate.
  - intros e' E. injection E as <-. repeat split.
Qed.

(** After a [boot] that succeeded with a port other than -1, [reboot] does
    not start the emulator again: it asks the host to reboot the emulator on
    that port, and the port stays. *)
Theorem reboot_after_boot (waitForBoot systemWritable again : bool)
        (w : World Host) (p : Z) (h : Host) :
  systemWritable && isPlayStore (device w) = false ->
  startEmulator (id (device w)) systemWritable waitForBoot (host w) = (Ok p, h) ->
  p <> -1 ->
  let w' := snd (boot waitForBoot systemWritable w) in
  reboot again w'
  = (fst (rebootEmulator p again h),
     BuildWorld (setPort (device w) p)
       (journal w ++ [StartEmulator (id (device w)) systemWritable waitForBoot;
                      RebootEmulator p again])
       (snd (rebootEmulator p again h))).
Proof.
  intros G S P. cbv zeta.
  rewrite (boot_unguarded waitForBoot systemWritable w G). cbv zeta.
  rewrite S. cbn [snd]. rewrite reboot_live by exact P.
  unfold afterCall. cbn [device journal host port setPort].
  now rewrite <- app_assoc.
Qed.

(** [shutdown] always asks the host to stop the emulator on the current
    port, also when that port is -1, and ends as that call ends. It does
    not put the port back to -1: the device is left as it was, so a
    [reboot] after a [shutdown] of a booted device does not boot it, it
    asks for a reboot on the old port. *)
Theorem shutdown_keeps_port (again : bool) (w : World Host) :
  let stopped := stopEmulator (port (device w)) true (host w) in
  shutdown w
  = (fst stopped, afterCall w (StopEmulator (port (device w)) true) (snd stopped)) /\
  device (snd (shutdown w)) = device w /\
  (port (device w) <> -1 ->
   journal (snd (reboot again (snd (shutdown w))))
   = (journal w ++ [StopEmulator (port (device w)) true;
                    RebootEmulator (port (device w)) again])%list).
Proof.
  cbv zeta.
  assert (S : shutdown w
              = (fst (stopEmulator (port (device w)) true (host w)),
                 afterCall w (StopEmulator (port (device w)) true)
                           (snd (stopEmulator (port (device w)) true (host w))))).
  { unfold shutdown, bind, this. apply call_run. }
  rewrite S. cbn [snd]. split; [reflexivity | split; [reflexivity |]].
  intros P. rewrite reboot_live by exact P.
  cbn [snd afterCall device journal]. now rewrite <- app_assoc.
Qed.

(** What [isCertInstalled] leaves in the journal. When the helper
    that computes the subject hash throws, nothing. Otherwise the command
    root and, when root succeeds, the command
    shell ls /data/misc/user/0/cacerts-added, its last two words between
    double quotation marks; when root throws, the listing is not asked for;
    an exception of either command is given to the logger when the device
    has one, and is dropped otherwise; when both commands succeed nothing is
    logged. *)
Theorem isCertInstalled_journal (certData : SSLCertificateData) (w : World Host) :
  let p := port (device w) in
  let root := ExecuteAdbCommand "root" p in
  let listCommand :=
    "shell " ++ quotationMark ++ "ls /data/misc/user/0/cacerts-added"
      ++ quotationMark in
  let list := ExecuteAdbCommand listCommand p in
  let logged := fun e => if hasLogger (device w) then [LoggerWarn e] else [] in
  (forall e,
      getSubjectHashOld certData = Throw e ->
      journal (snd (isCertInstalled certData w)) = journal w) /\
  (forall subjectHash,
      getSubjectHashOld certData = Ok subjectHash ->
      (forall e h1,
          executeAdbCommand "root" p (host w) = (Throw e, h1) ->
          journal (snd (isCertInstalled certData w))
          = (journal w ++ root :: logged e)%list) /\
      (forall r h1 e h2,
          executeAdbCommand "root" p (host w) = (Ok r, h1) ->
          executeAdbCommand listCommand p h1 = (Throw e, h2) ->
          journal (snd (isCertInstalled certData w))
          = (journal w ++ root :: list :: logged e)%list) /\
      (forall r h1 listing h2,
          executeAdbCommand "root" p (host w) = (Ok r, h1) ->
          executeAdbCommand listCommand p h1 = (Ok listing, h2) ->
          journal (snd (isCertInstalled certData w))
          = (journal w ++ [root; list])%list)).
Proof.
  cbv zeta. split.
  { intros e Hash. unfold isCertInstalled, bind, pure. now rewrite Hash. }
  intros subjectHash Hash.
  unfold isCertInstalled, bind at 1, pure. rewrite Hash.
  unfold tryCatch, bind, ret, loggerWarn.
  change listCertsCommand
    with ("shell " ++ quotationMark ++ "ls /data/misc/user/0/cacerts-added"
            ++ quotationMark).
  rewrite adb_run. cbn [fst snd]. split; [| split].
  - intros e h1 E. rewrite E. cbn [fst snd afterCall device journal].
    cbn. destruct (hasLogger (device w)); cbn; rewrite <- ?app_assoc; reflexivity.
  - intros r h1 e h2 E1 E2. rewrite E1. cbn [fst snd]. rewrite adb_run.
    cbn [fst snd afterCall device host journal]. rewrite E2.
    cbn [fst snd device journal].
    cbn. destruct (hasLogger (device w)); cbn; rewrite <- ?app_assoc; reflexivity.
  - intros r h1 listing h2 E1 E2. rewrite E1. cbn [fst snd]. rewrite adb_run.
    cbn [fst snd afterCall device host journal]. rewrite E2.
    cbn. rewrite <- ?app_assoc. reflexivity.
Qed.

End DeviceLifecycle.

Lemma boot_assigns_port_pixel :
  AndroidDevice.journal (snd (AndroidDevice.boot true true (worldOf bootedPixel [])))
  = [AndroidDevice.StartEmulator "Pixel_5_API_33" true true].
Proof.
  apply (boot_assigns_port true true (worldOf bootedPixel [])).
  reflexivity.
Defined.

Lemma reboot_after_boot_pixel :
  AndroidDevice.reboot false
    (snd (AndroidDevice.boot true false (worldOf pixel [])))
  = (Ok tt,
     AndroidDevice.BuildWorld bootedPixel
       [AndroidDevice.StartEmulator "Pixel_5_API_33" false true;
        AndroidDevice.RebootEmulator 5554 false]
       []).
Proof.
  assert (G : false && AndroidDevice.isPlayStore (AndroidDevice.device (worldOf pixel []))
              = false) by reflexivity.
  assert (S : AndroidDevice.startEmulator
                (AndroidDevice.id (AndroidDevice.device (worldOf pixel [])))
                false true (AndroidDevice.host (worldOf pixel []))
              = (Ok 5554, [])) by reflexivity.
  assert (P : 5554 <> -1) by lia.
  exact (reboot_after_boot true false false (worldOf pixel []) 5554 [] G S P).
Defined.

Lemma shutdown_keeps_port_pixel :
  AndroidDevice.journal
    (snd (AndroidDevice.reboot true
            (snd (AndroidDevice.shutdown (worldOf bootedPixel [])))))
  = [AndroidDevice.StopEmulator 5554 true; AndroidDevice.RebootEmulator 5554 true].
Proof.
  apply (proj2 (proj2 (shutdown_keeps_port true (worldOf bootedPixel [])))).
  vm_compute. discriminate.
Defined.

(** Both commands are sent to a host that answers them, and nothing is
    logged. *)
Lemma isCertInstalled_journal_listed :
  AndroidDevice.journal
    (snd (AndroidDevice.isCertInstalled someCert (answeringWorld bootedPixel)))
  = [AndroidDevice.ExecuteAdbCommand "root" 5554;
     AndroidDevice.ExecuteAdbCommand
       ("shell " ++ quotationMark ++ "ls /data/misc/user/0/cacerts-added"
          ++ quotationMark) 5554].
Proof.
  apply (proj2 (proj2 (proj2
           (@isCertInstalled_journal AnsweringHost answeringUtils scriptedCrypto
              someCert (answeringWorld bootedPixel))
           "9a5ba575" ltac:(reflexivity)))
         "restarting adbd as root" answering
         ("9a5ba575.0" ++ String "010" EmptyString) answering);
    reflexivity.
Defined.
